(** * The registration endpoint [src/pages/api/register.ts]

    A shallow embedding of the [register] request handler and of the
    external services it talks to (the Redis hash store, the Supabase
    [registrations] table, the captcha validator, the clock and the id
    generator), followed by the properties of the handler.

    The handler is an [async] function: every [await] and every call of an
    effectful primitive is a node of a finite interaction tree ([Prog]); a
    sequential interpreter ([run]) executes a whole request against a
    [World], a one-step interpreter ([step]) is used to interleave two
    requests. *)

From Stdlib Require Import ZArith Lia Ascii String List Sorted.
From stdpp Require Import base option list strings gmap pretty.

Local Open Scope Z_scope.
Local Open Scope string_scope.

(** ** JavaScript values *)

Module JS.

(** Numbers.  Every number the handler computes is an integer (a counter
    value, a row count, a millisecond timestamp, the result of [parseInt])
    or [NaN]; integers are modelled by [Z], which is exact on the range
    where a double holds an integer exactly and prints it in plain decimal
    notation. *)
Inductive number : Type :=
| NaN
| Int (z : Z).

(** The values a parsed JSON body field or a store column can hold. *)
Inductive value : Type :=
| Undefined
| Null
| Bool (b : bool)
| Number (n : number)
| Str (s : string)
| Object.

(** Strings are sequences of Latin-1 code units (U+0000 .. U+00FF). *)
Definition code (c : ascii) : N := N_of_ascii c.

(** ToBoolean: the test performed by [if (x)], [!x] and [x || y]. *)
Definition truthy (v : value) : bool :=
  match v with
  | Undefined | Null => false
  | Bool b => b
  | Number NaN => false
  | Number (Int z) => negb (z =? 0)%Z
  | Str s => negb (String.eqb s "")
  | Object => true
  end.

(** [a || b] *)
Definition or_else (a b : value) : value := if truthy a then a else b.

(** WhiteSpace and LineTerminator code units below U+0100: TAB, LF, VT, FF,
    CR, SP and NBSP. *)
Definition is_space (c : ascii) : bool :=
  let n := code c in
  ((9 <=? n) && (n <=? 13) || (n =? 32) || (n =? 160))%N.

Fixpoint trimStart (s : string) : string :=
  match s with
  | EmptyString => EmptyString
  | String c r => if is_space c then trimStart r else s
  end.

Fixpoint trimEnd (s : string) : string :=
  match s with
  | EmptyString => EmptyString
  | String c r =>
      match trimEnd r with
      | EmptyString => if is_space c then EmptyString else String c EmptyString
      | r' => String c r'
      end
  end.

(** [String.prototype.trim] *)
Definition trim (s : string) : string := trimEnd (trimStart s).

(** Lower-case mapping of one Latin-1 code unit: A-Z, and U+00C0 .. U+00DE
    except the multiplication sign U+00D7. *)
Definition lower_char (c : ascii) : ascii :=
  let n := code c in
  if ((65 <=? n) && (n <=? 90)
      || (192 <=? n) && (n <=? 222) && negb (n =? 215))%N
  then ascii_of_N (n + 32) else c.

(** [String.prototype.toLowerCase] *)
Fixpoint toLowerCase (s : string) : string :=
  match s with
  | EmptyString => EmptyString
  | String c r => String (lower_char c) (toLowerCase r)
  end.

(** ToString *)
Definition number_to_string (n : number) : string :=
  match n with
  | NaN => "NaN"
  | Int z => pretty z
  end.

Definition to_string (v : value) : string :=
  match v with
  | Undefined => "undefined"
  | Null => "null"
  | Bool true => "true"
  | Bool false => "false"
  | Number n => number_to_string n
  | Str s => s
  | Object => "[object Object]"
  end.

Definition digit_of (c : ascii) : option Z :=
  let n := code c in
  if ((48 <=? n) && (n <=? 57))%N then Some (Z.of_N n - 48) else None.

(** The longest prefix of decimal digits of [s], read with accumulator
    [acc]. *)
Fixpoint read_digits (acc : Z) (s : string) : Z :=
  match s with
  | EmptyString => acc
  | String c r =>
      match digit_of c with
      | Some d => read_digits (10 * acc + d) r
      | None => acc
      end
  end.

Definition starts_with_digit (s : string) : bool :=
  match s with
  | String c _ => bool_decide (is_Some (digit_of c))
  | EmptyString => false
  end.

Definition parse_unsigned (s : string) : number :=
  if starts_with_digit s then Int (read_digits 0 s) else NaN.

Definition negate (n : number) : number :=
  match n with
  | NaN => NaN
  | Int z => Int (- z)
  end.

(** [parseInt(string, 10)] on a string: leading white space is skipped, one
    sign is accepted, then the longest run of decimal digits is read; no
    digit gives [NaN]. *)
Definition parseInt_string (s : string) : number :=
  match trimStart s with
  | String "-" r => negate (parse_unsigned r)
  | String "+" r => parse_unsigned r
  | t => parse_unsigned t
  end.

(** [parseInt(v, 10)]: the argument is first converted with ToString. *)
Definition parseInt (v : value) : number := parseInt_string (to_string v).

End JS.

Import JS.

(** ** Requests and responses *)

(** [req.body] as the body parser leaves it.  A JSON [null] (or no parsed
    body at all) is [NoBody]: reading a property of it throws.  Of any other
    body the handler reads the properties [email] and [token]; a property the
    client did not send, and every property of a body that is a string, a
    number or a boolean, is [Undefined]. *)
Inductive RequestBody : Type :=
| NoBody
| Fields (email_field token_field : value).

(** [req.method] and [req.body]. *)
Record Request : Type := {
  method : string;
  req_body : RequestBody
}.

Definition has_body (req : Request) : bool :=
  match req_body req with
  | NoBody => false
  | Fields _ _ => true
  end.

(** [req.body.email] and [req.body.token], where they can be read. *)
Definition body_email (req : Request) : value :=
  match req_body req with
  | NoBody => Undefined
  | Fields e _ => e
  end.

Definition body_token (req : Request) : value :=
  match req_body req with
  | NoBody => Undefined
  | Fields _ t => t
  end.

(** [ConfUser], the success body. *)
Record ConfUser : Type := {
  id : value;
  email : string;
  ticketNumber : number;
  createdAt : number;
  name : value;
  username : value
}.

Inductive Body : Type :=
| ErrorBody (code message : string)
| UserBody (user : ConfUser).

(** The arguments handed to [cookie.serialize]. *)
Record Cookie : Type := {
  cookie_name : string;
  cookie_value : value;
  httpOnly : bool;
  sameSite : string;
  secure : bool;
  path : string;
  expires : Z
}.

Record Response : Type := {
  status : Z;
  set_cookie : option Cookie;
  body : Body
}.

(** *** What goes on the wire *)

(** The characters [encodeURIComponent] leaves alone: letters, digits and
    [- _ . ! ~ * ' ( )]. *)
Definition unreserved (c : ascii) : bool :=
  let n := code c in
  ((65 <=? n) && (n <=? 90) || (97 <=? n) && (n <=? 122) || (48 <=? n) && (n <=? 57)
   || (n =? 45) || (n =? 95) || (n =? 46) || (n =? 33) || (n =? 126)
   || (n =? 42) || (n =? 39) || (n =? 40) || (n =? 41))%N.

Definition hex_digit (n : N) : ascii :=
  match String.get (N.to_nat n) "0123456789ABCDEF" with
  | Some c => c
  | None => "0"%char
  end.

(** The escape [%XX] of one byte. *)
Definition percent (b : N) : string :=
  String "%" (String (hex_digit (b / 16)) (String (hex_digit (b mod 16)) EmptyString)).

(** A Latin-1 code unit as [encodeURIComponent] writes it: itself, or the
    escapes of its UTF-8 bytes (one byte below U+0080, two from there on). *)
Definition encode_char (c : ascii) : string :=
  let n := code c in
  if unreserved c then String c EmptyString
  else if (n <? 128)%N then percent n
  else percent (192 + n / 64) +:+ percent (128 + n mod 64).

Fixpoint encodeURIComponent (s : string) : string :=
  match s with
  | EmptyString => EmptyString
  | String c r => encode_char c +:+ encodeURIComponent r
  end.

(** The start of the header [cookie.serialize] builds: the name, an equals
    sign, and the value converted to a string and encoded. *)
Definition cookie_pair (c : Cookie) : string :=
  cookie_name c +:+ "=" +:+ encodeURIComponent (to_string (cookie_value c)).

(** The [id] property of the JSON body: [JSON.stringify] leaves out a
    property whose value is [undefined]. *)
Definition sent_id (u : ConfUser) : option value :=
  match id u with
  | Undefined => None
  | v => Some v
  end.

(** ** The environment: configuration, libraries and external answers *)

(** A row of the [registrations] table. *)
Record Row : Type := {
  row_id : value;
  row_email : value;
  row_ticket_number : value;
  row_created_at : value;
  row_name : value;
  row_username : value
}.

(** What the handler imports and does not define: constants, the pure library
    functions, which clients are configured, and the answers of the outside
    world (captcha service, clock, random generator, column defaults of the
    database), one answer per tick of the world. *)
Record Env : Type := {
  isEmail : string -> bool;
  emailToId : string -> string;
  IS_CAPTCHA_ENABLED : bool;
  redis : bool;
  supabase : bool;
  SAMPLE_TICKET_NUMBER : Z;
  COOKIE : string;
  production : bool;
  captcha_answer : nat -> value -> bool;
  clock : nat -> Z;
  random_id : nat -> string;
  db_default : nat -> value * value
}.

(** The state outside the handler.  Redis keys holding hashes ([id:...]) and
    keys holding integers ([count]) are kept in two maps; [tick] counts the
    operations performed so far. *)
Record World : Type := {
  hashes : gmap string (gmap string string);
  counters : gmap string Z;
  registrations : list Row;
  tick : nat
}.

(** ** Effects *)

(** The effectful primitives the handler calls, indexed by the type of their
    answer. *)
Inductive Op : Type -> Type :=
| validateCaptchaResult (token : value) : Op bool
| hget (key field : string) : Op (option string)
| hmget (key : string) (fields : list string) : Op (list (option string))
| incr (key : string) : Op Z
| hmset (key : string) (fields : list (string * value)) : Op unit
| select_eq_email_single (e : string) : Op (option Row)
| select_count_exact : Op Z
| insert_single (ticket_number : Z) (name : value) (e : string) (username : value) : Op Row
| Date_now : Op Z
| nanoid : Op string.

(** A handler in progress: finished, failed with an exception, or waiting for
    the answer of an operation. *)
Inductive Prog (A : Type) : Type :=
| Return (a : A)
| Throw (e : string)
| Await {X : Type} (op : Op X) (k : X -> Prog A).

Arguments Return {A} a.
Arguments Throw {A} e.
Arguments Await {A X} op k.

Fixpoint bind {A B : Type} (p : Prog A) (f : A -> Prog B) : Prog B :=
  match p with
  | Return a => f a
  | Throw e => Throw e
  | Await op k => Await op (fun x => bind (k x) f)
  end.

Definition await {X : Type} (op : Op X) : Prog X := Await op Return.

#[global] Instance Prog_ret : MRet Prog := @Return.
#[global] Instance Prog_bind : MBind Prog := fun A B f p => bind p f.

(** An operation that was performed, whatever its answer type. *)
Inductive Call : Type :=
| call {X : Type} (op : Op X).

Definition is_store_call (c : Call) : bool :=
  match c with
  | call op =>
      match op with
      | hget _ _ | hmget _ _ | incr _ | hmset _ _
      | select_eq_email_single _ | select_count_exact | insert_single _ _ _ _ => true
      | validateCaptchaResult _ | Date_now | nanoid => false
      end
  end.

Definition is_store_write (c : Call) : bool :=
  match c with
  | call op =>
      match op with
      | incr _ | hmset _ _ | insert_single _ _ _ _ => true
      | _ => false
      end
  end.

Definition is_captcha_call (c : Call) : bool :=
  match c with
  | call op => match op with validateCaptchaResult _ => true | _ => false end
  end.

(** ** The stores *)

Definition redis_hget (w : World) (key field : string) : option string :=
  hashes w !! key ≫= (fun h => h !! field).

Definition redis_hmset (w : World) (key : string) (fields : list (string * value))
  : gmap string (gmap string string) :=
  <[key := foldl (fun h fv => <[fv.1 := to_string fv.2]> h)
                 (default ∅ (hashes w !! key)) fields]> (hashes w).

Definition redis_incr (w : World) (key : string) : Z :=
  default 0 (counters w !! key) + 1.

Definition email_is (e : string) (r : Row) : bool :=
  match row_email r with
  | Str s => String.eqb s e
  | _ => false
  end.

(** [.single()]: the row when exactly one row matches, no data otherwise. *)
Definition single (rows : list Row) : option Row :=
  match rows with
  | [r] => Some r
  | _ => None
  end.

(** A column the insert leaves undefined takes its default, null. *)
Definition column (v : value) : value :=
  match v with
  | Undefined => Null
  | _ => v
  end.

Definition inserted_row (env : Env) (w : World)
    (ticket_number : Z) (name : value) (e : string) (username : value) : Row :=
  {| row_id := (db_default env (tick w)).1;
     row_email := Str e;
     row_ticket_number := Number (Int ticket_number);
     row_created_at := (db_default env (tick w)).2;
     row_name := column name;
     row_username := column username |}.

Definition tock (w : World) : World :=
  {| hashes := hashes w; counters := counters w;
     registrations := registrations w; tick := S (tick w) |}.

(** One operation, performed atomically: its answer and the world after it. *)
Definition perform (env : Env) {X : Type} (op : Op X) (w : World) : X * World :=
  match op in Op T return T * World with
  | validateCaptchaResult token => (captcha_answer env (tick w) token, tock w)
  | hget key field => (redis_hget w key field, tock w)
  | hmget key fields => (map (redis_hget w key) fields, tock w)
  | incr key =>
      (redis_incr w key,
       {| hashes := hashes w; counters := <[key := redis_incr w key]> (counters w);
          registrations := registrations w; tick := S (tick w) |})
  | hmset key fields =>
      (tt,
       {| hashes := redis_hmset w key fields; counters := counters w;
          registrations := registrations w; tick := S (tick w) |})
  | select_eq_email_single e =>
      (single (List.filter (email_is e) (registrations w)), tock w)
  | select_count_exact => (Z.of_nat (length (registrations w)), tock w)
  | insert_single ticket_number name e username =>
      let r := inserted_row env w ticket_number name e username in
      (r,
       {| hashes := hashes w; counters := counters w;
          registrations := registrations w ++ [r]; tick := S (tick w) |})
  | Date_now => (clock env (tick w), tock w)
  | nanoid => (random_id env (tick w), tock w)
  end.

Inductive Result (A : Type) : Type :=
| Returned (a : A)
| Threw (e : string).

Arguments Returned {A} a.
Arguments Threw {A} e.

Record Outcome (A : Type) : Type := {
  result : Result A;
  final : World;
  trace : list Call
}.

Arguments result {A} o.
Arguments final {A} o.
Arguments trace {A} o.

(** A request handled from start to end with nothing running in between. *)
Fixpoint run (env : Env) {A : Type} (p : Prog A) (w : World) : Outcome A :=
  match p with
  | Return a => {| result := Returned a; final := w; trace := [] |}
  | Throw e => {| result := Threw e; final := w; trace := [] |}
  | Await op k =>
      let xw := perform env op w in
      let o := run env (k xw.1) xw.2 in
      {| result := result o; final := final o; trace := call op :: trace o |}
  end.

(** One step of a handler: up to its next suspension point. *)
Definition step (env : Env) {A : Type} (p : Prog A) (w : World) : Prog A * World :=
  match p with
  | Await op k => let xw := perform env op w in (k xw.1, xw.2)
  | _ => (p, w)
  end.

(** Two handlers in flight; the schedule says which one takes each step
    ([true]: the first). *)
Fixpoint interleave (env : Env) {A : Type} (schedule : list bool)
    (p q : Prog A) (w : World) : Prog A * Prog A * World :=
  match schedule with
  | [] => (p, q, w)
  | true :: rest => let pw := step env p w in interleave env rest pw.1 q pw.2
  | false :: rest => let qw := step env q w in interleave env rest p qw.1 qw.2
  end.

(** ** The handler *)

Definition error_response (st : Z) (code message : string) : Response :=
  {| status := st; set_cookie := None; body := ErrorBody code message |}.

(** The variables declared before the backend is chosen. *)
Record Vars : Type := {
  var_id : value;
  var_ticketNumber : number;
  var_createdAt : number;
  var_statusCode : Z;
  var_name : value;
  var_username : value
}.

(** A Redis reply as a JavaScript value: a missing field is [null]. *)
Definition reply (r : option string) : value :=
  match r with
  | Some s => Str s
  | None => Null
  end.

(** [item[i]] *)
Definition item_at (item : list (option string)) (i : nat) : value :=
  match item !! i with
  | Some r => reply r
  | None => Undefined
  end.

(** [if (redis) { ... }] *)
Definition redis_branch (env : Env) (email : string) : Prog Vars :=
  let id := emailToId env email in
  existingTicketNumberString ← await (hget ("id:" +:+ id) "ticketNumber");
  if truthy (reply existingTicketNumberString) then
    item ← await (hmget ("id:" +:+ id) ["name"; "username"; "createdAt"]);
    mret {| var_id := Str id;
            var_ticketNumber := parseInt (reply existingTicketNumberString);
            var_createdAt := parseInt (item_at item 2);
            var_statusCode := 200;
            var_name := item_at item 0;
            var_username := item_at item 1 |}
  else
    ticketNumber ← await (incr "count");
    createdAt ← await Date_now;
    _ ← await (hmset ("id:" +:+ id)
                 [("email", Str email);
                  ("ticketNumber", Number (Int ticketNumber));
                  ("createdAt", Number (Int createdAt))]);
    mret {| var_id := Str id;
            var_ticketNumber := Int ticketNumber;
            var_createdAt := Int createdAt;
            var_statusCode := 201;
            var_name := Undefined;
            var_username := Undefined |}.

(** [else if (supabase) { ... }] *)
Definition supabase_branch (email : string) : Prog Vars :=
  existingRegistration ← await (select_eq_email_single email);
  match existingRegistration with
  | Some item =>
      mret {| var_id := Undefined;
              var_ticketNumber := parseInt (row_ticket_number item);
              var_createdAt := parseInt (row_created_at item);
              var_statusCode := 200;
              var_name := row_name item;
              var_username := row_username item |}
  | None =>
      count ← await select_count_exact;
      let ticketNumber := count + 1 in
      data ← await (insert_single ticketNumber Undefined email Undefined);
      mret {| var_id := row_id data;
              var_ticketNumber := Int ticketNumber;
              var_createdAt := parseInt (row_created_at data);
              var_statusCode := 201;
              var_name := Undefined;
              var_username := Undefined |}
  end.

(** [else { ... }]: no backend configured. *)
Definition sample_branch (env : Env) : Prog Vars :=
  id ← await nanoid;
  createdAt ← await Date_now;
  mret {| var_id := Str id;
          var_ticketNumber := Int (SAMPLE_TICKET_NUMBER env);
          var_createdAt := Int createdAt;
          var_statusCode := 200;
          var_name := Undefined;
          var_username := Undefined |}.

(** [ms('7 days')] *)
Definition seven_days : Z := 7 * 24 * 60 * 60 * 1000.

(** The cookie header and the success body, [now] being the answer of
    [Date.now()] inside the cookie options. *)
Definition success_response (env : Env) (email : string) (v : Vars) (now : Z)
  : Response :=
  {| status := var_statusCode v;
     set_cookie :=
       Some {| cookie_name := COOKIE env;
               cookie_value := var_id v;
               httpOnly := true;
               sameSite := "strict";
               secure := production env;
               path := "/api";
               expires := now + seven_days |};
     body :=
       UserBody {| id := var_id v;
                   email := email;
                   ticketNumber := var_ticketNumber v;
                   createdAt := var_createdAt v;
                   name := var_name v;
                   username := var_username v |} |}.

Definition respond (env : Env) (email : string) (v : Vars) : Prog Response :=
  now ← await Date_now;
  mret (success_response env email v now).

(** From the choice of the backend to the response. *)
Definition resolve (env : Env) (email : string) : Prog Response :=
  v ← (if redis env then redis_branch env email
       else if supabase env then supabase_branch email
       else sample_branch env);
  respond env email v.

(** [export default async function register(req, res)].  Line 48 throws in
    two ways: [req.body.email] when there is no body to read from, and
    [.trim()] when the email is a truthy value that is not a string, which has
    no such method. *)
Definition register (env : Env) (req : Request) : Prog Response :=
  if negb (String.eqb (method req) "POST") then
    mret (error_response 501 "method_unknown" "This endpoint only responds to POST")
  else
    match req_body req with
    | NoBody => Throw "TypeError: cannot read properties of null (reading 'email')"
    | Fields email_field token_field =>
        match or_else email_field (Str "") with
        | Str s =>
            let email := toLowerCase (trim s) in
            let token := token_field in
            if negb (isEmail env email) then
              mret (error_response 400 "bad_email" "Invalid email")
            else if IS_CAPTCHA_ENABLED env then
              isCaptchaValid ← await (validateCaptchaResult token);
              if negb isCaptchaValid then
                mret (error_response 400 "bad_captcha" "Invalid captcha")
              else resolve env email
            else resolve env email
        | _ => Throw "TypeError: trim is not a function"
        end
    end.

(** One request served against a world. *)
Definition serve (env : Env) (req : Request) (w : World) : Outcome Response :=
  run env (register env req) w.

(** Requests served one after the other. *)
Fixpoint serve_all (env : Env) (reqs : list Request) (w : World)
  : list (Outcome Response) :=
  match reqs with
  | [] => []
  | req :: rest => let o := serve env req w in o :: serve_all env rest (final o)
  end.

(** ** What a response says *)

Definition status_of (o : Outcome Response) : option Z :=
  match result o with
  | Returned r => Some (status r)
  | Threw _ => None
  end.

Definition user_of (o : Outcome Response) : option ConfUser :=
  match result o with
  | Returned {| body := UserBody u |} => Some u
  | _ => None
  end.

Definition error_code_of (o : Outcome Response) : option string :=
  match result o with
  | Returned {| body := ErrorBody c _ |} => Some c
  | _ => None
  end.

Definition cookie_of (o : Outcome Response) : option Cookie :=
  match result o with
  | Returned r => set_cookie r
  | Threw _ => None
  end.

(** The handler answers 201 exactly where it has created a registration
    (the two [statusCode = 201] assignments) and 200 on the branches that only
    read one. *)
Definition CREATED : Z := 201.
Definition OK : Z := 200.

(** The ticket number a response hands out when it reports a creation. *)
Definition assigned_ticket (o : Outcome Response) : option Z :=
  match result o with
  | Returned {| status := 201; body := UserBody {| ticketNumber := Int t |} |} => Some t
  | _ => None
  end.

(** The store part of a world. *)
Definition same_store (w w' : World) : Prop :=
  hashes w' = hashes w /\ counters w' = counters w
  /\ registrations w' = registrations w.

(** ** A concrete environment for examples *)

Fixpoint contains (c : ascii) (s : string) : bool :=
  match s with
  | EmptyString => false
  | String d r => Ascii.eqb c d || contains c r
  end.

Fixpoint after (c : ascii) (s : string) : string :=
  match s with
  | EmptyString => EmptyString
  | String d r => if Ascii.eqb c d then r else after c r
  end.

(** A stand-in for [validator.isEmail] on which the statements are run: a
    non-empty local part, an at sign, and a dot inside the domain. *)
Definition shape_isEmail (s : string) : bool :=
  match s with
  | EmptyString => false
  | String c _ =>
      negb (Ascii.eqb c "@") && contains "@" s
      && match after "." (after "@" s) with
         | EmptyString => false
         | _ => negb (contains "@" (after "@" s))
         end
  end.

Definition demo_env (use_redis use_supabase captcha : bool) : Env :=
  {| isEmail := shape_isEmail;
     emailToId := fun e => "sha-" +:+ e;
     IS_CAPTCHA_ENABLED := captcha;
     redis := use_redis;
     supabase := use_supabase;
     SAMPLE_TICKET_NUMBER := 1234;
     COOKIE := "user-id";
     production := false;
     captcha_answer := fun _ token =>
       match token with Str "good-token" => true | _ => false end;
     clock := fun t => 1600000000000 + Z.of_nat t;
     random_id := fun t => "nano-" +:+ pretty t;
     db_default := fun t => (Str ("uuid-" +:+ pretty t), Str "1600000000000") |}.

Definition empty_world : World :=
  {| hashes := ∅; counters := ∅; registrations := []; tick := 0 |}.

Definition post (e token : value) : Request :=
  {| method := "POST"; req_body := Fields e token |}.

(** A POST request whose JSON body is [null]. *)
Definition post_null : Request :=
  {| method := "POST"; req_body := NoBody |}.

(** ** Preconditions of the success path *)

(** The email after [|| ''], [trim] and [toLowerCase]; nothing when line 48
    throws. *)
Definition normalized_email (req : Request) : option string :=
  match req_body req with
  | NoBody => None
  | Fields email_field _ =>
      match or_else email_field (Str "") with
      | Str s => Some (toLowerCase (trim s))
      | _ => None
      end
  end.

Definition is_string (v : value) : bool :=
  match v with
  | Str _ => true
  | _ => false
  end.

(** The requests on which line 48 throws, said without the handler's own
    operations: there is no body, or the email is truthy and not a string. *)
Definition unreadable (req : Request) : bool :=
  match req_body req with
  | NoBody => true
  | Fields email_field _ => truthy email_field && negb (is_string email_field)
  end.

(** The exception of line 48. *)
Definition thrown (req : Request) : string :=
  match req_body req with
  | NoBody => "TypeError: cannot read properties of null (reading 'email')"
  | Fields _ _ => "TypeError: trim is not a function"
  end.

(** The captcha gate lets the request through: enforcement is off, or the
    validator, asked now, answers yes. *)
Definition passes_captcha (env : Env) (w : World) (token : value) : bool :=
  negb (IS_CAPTCHA_ENABLED env) || captcha_answer env (tick w) token.

(** The request gets past the method check, the email check and the captcha
    gate; the result is the normalized email. *)
Definition accepted (env : Env) (w : World) (req : Request) : option string :=
  if String.eqb (method req) "POST" then
    match normalized_email req with
    | Some e =>
        if isEmail env e && passes_captcha env w (body_token req) then Some e else None
    | None => None
    end
  else None.

(** The world and the trace once the captcha gate is behind. *)
Definition after_captcha (env : Env) (w : World) : World :=
  if IS_CAPTCHA_ENABLED env then tock w else w.

Definition captcha_trace (env : Env) (token : value) : list Call :=
  if IS_CAPTCHA_ENABLED env then [call (validateCaptchaResult token)] else [].

Definition with_prefix {A : Type} (t : list Call) (o : Outcome A) : Outcome A :=
  {| result := result o; final := final o; trace := t ++ trace o |}.

(** The value of the global counter. *)
Definition count (w : World) : Z := default 0 (counters w !! "count").

(** The Redis backend holds a registration for this email: the test of
    line 83. *)
Definition redis_registered (env : Env) (w : World) (e : string) : bool :=
  truthy (reply (redis_hget w ("id:" +:+ emailToId env e) "ticketNumber")).


(** The row the relational lookup of lines 107-111 finds. *)
Definition supabase_lookup (w : World) (e : string) : option Row :=
  single (List.filter (email_is e) (registrations w)).

(** The key of the hash of an email. *)
Definition key_of (env : Env) (e : string) : string := "id:" +:+ emailToId env e.

(** What the Redis branch reads back for a registered email. *)
Definition redis_stored (env : Env) (w : World) (e : string) : Vars :=
  {| var_id := Str (emailToId env e);
     var_ticketNumber := parseInt (reply (redis_hget w (key_of env e) "ticketNumber"));
     var_createdAt := parseInt (reply (redis_hget w (key_of env e) "createdAt"));
     var_statusCode := 200;
     var_name := reply (redis_hget w (key_of env e) "name");
     var_username := reply (redis_hget w (key_of env e) "username") |}.

(** What the Redis branch creates for a new email. *)
Definition redis_created (env : Env) (w : World) (e : string) : Vars :=
  {| var_id := Str (emailToId env e);
     var_ticketNumber := Int (count w + 1);
     var_createdAt := Int (clock env (2 + tick w));
     var_statusCode := 201;
     var_name := Undefined;
     var_username := Undefined |}.

Definition redis_new_fields (env : Env) (w : World) (e : string)
  : list (string * value) :=
  [("email", Str e);
   ("ticketNumber", Number (Int (count w + 1)));
   ("createdAt", Number (Int (clock env (2 + tick w))))].

Definition advance (n : nat) (w : World) : World :=
  {| hashes := hashes w; counters := counters w;
     registrations := registrations w; tick := n + tick w |}.

Definition redis_world_created (env : Env) (w : World) (e : string) : World :=
  {| hashes :=
       <[key_of env e :=
           foldl (fun h fv => <[fv.1 := to_string fv.2]> h)
                 (default ∅ (hashes w !! key_of env e)) (redis_new_fields env w e)]>
         (hashes w);
     counters := <["count" := count w + 1]> (counters w);
     registrations := registrations w;
     tick := 5 + tick w |}.

(** What the relational branch returns for a row it found. *)
Definition supabase_stored (item : Row) : Vars :=
  {| var_id := Undefined;
     var_ticketNumber := parseInt (row_ticket_number item);
     var_createdAt := parseInt (row_created_at item);
     var_statusCode := 200;
     var_name := row_name item;
     var_username := row_username item |}.

(** The row the relational branch inserts for a new email, and what it
    returns. *)
Definition supabase_new_row (env : Env) (w : World) (e : string) : Row :=
  inserted_row env (advance 2 w) (Z.of_nat (length (registrations w)) + 1)
    Undefined e Undefined.

Definition supabase_created (env : Env) (w : World) (e : string) : Vars :=
  {| var_id := row_id (supabase_new_row env w e);
     var_ticketNumber := Int (Z.of_nat (length (registrations w)) + 1);
     var_createdAt := parseInt (row_created_at (supabase_new_row env w e));
     var_statusCode := 201;
     var_name := Undefined;
     var_username := Undefined |}.

Definition supabase_world_created (env : Env) (w : World) (e : string) : World :=
  {| hashes := hashes w; counters := counters w;
     registrations := registrations w ++ [supabase_new_row env w e];
     tick := 4 + tick w |}.

(** What the branch without a backend returns. *)
Definition sample_vars (env : Env) (w : World) : Vars :=
  {| var_id := Str (random_id env (tick w));
     var_ticketNumber := Int (SAMPLE_TICKET_NUMBER env);
     var_createdAt := Int (clock env (1 + tick w));
     var_statusCode := 200;
     var_name := Undefined;
     var_username := Undefined |}.

(** The ticket numbers handed out by the creations among the requests
    served one after the other from [w], in order. *)
Definition tickets (env : Env) (reqs : list Request) (w : World) : list Z :=
  omap assigned_ticket (serve_all env reqs w).

(** The schedule of the race: the two requests advance in lockstep, so both
    look up, then both count, then both insert. *)
Definition lockstep : list bool :=
  [true; false; true; false; true; false; true; false].

(** The ticket number in the body of a response. *)
Definition ticket_of_response (r : Response) : option number :=
  match body r with
  | UserBody u => Some (ticketNumber u)
  | ErrorBody _ _ => None
  end.

(** A handler in flight has its ticket in hand: whatever answers it still
    gets, a response 201 from it carries the ticket [t]. *)
Fixpoint holds_ticket (p : Prog Response) (t : Z) : Prop :=
  match p with
  | Return r => status r = 201 -> ticket_of_response r = Some (Int t)
  | Throw _ => True
  | Await op k => forall x, holds_ticket (k x) t
  end.

(** A handler in flight has no ticket yet: it answers 201 only after an
    increment of [count], and then with the value the increment returns; it
    increments no other key. *)
Fixpoint awaits_ticket (p : Prog Response) : Prop :=
  match p with
  | Return r => status r <> 201
  | Throw _ => True
  | Await op k =>
      match op in Op X return (X -> Prog Response) -> (X -> Prop) -> Prop with
      | incr key => fun k _ => key = "count" /\ forall x, holds_ticket (k x) x
      | _ => fun _ rec => forall x, rec x
      end k (fun x => awaits_ticket (k x))
  end.

(** Where a handler in flight stands with respect to its ticket. *)
Inductive Phase : Type :=
| Waiting
| Holding (t : Z).

Definition in_phase (p : Prog Response) (ph : Phase) : Prop :=
  match ph with
  | Waiting => awaits_ticket p
  | Holding t => holds_ticket p t
  end.

(** The tickets in hand were returned by the counter, and differ. *)
Definition phase_below (ph : Phase) (c : Z) : Prop :=
  match ph with
  | Waiting => True
  | Holding t => t <= c
  end.

Definition phases_apart (ph1 ph2 : Phase) : Prop :=
  match ph1, ph2 with
  | Holding t1, Holding t2 => t1 <> t2
  | _, _ => True
  end.

(** The world left by requests served one after the other. *)
Fixpoint serve_seq (env : Env) (reqs : list Request) (w : World) : World :=
  match reqs with
  | [] => w
  | req :: rest => serve_seq env rest (final (serve env req w))
  end.

(** The rows of the table that carry an email. *)
Definition rows_for (w : World) (e : string) : list Row :=
  List.filter (email_is e) (registrations w).

(** No email has more than one row. *)
Definition unique_emails (w : World) : Prop :=
  forall e, (length (rows_for w e) <= 1)%nat.

(** The hash the Redis branch leaves under the key of a new email. *)
Definition redis_new_hash (env : Env) (w : World) (e : string) : gmap string string :=
  foldl (fun h fv => <[fv.1 := to_string fv.2]> h)
        (default ∅ (hashes w !! key_of env e)) (redis_new_fields env w e).

(** The captcha calls of a trace. *)
Definition captcha_calls (t : list Call) : list Call :=
  List.filter is_captcha_call t.

(** [n] rounds in which the first handler takes a step, then the second. *)
Fixpoint alternate (n : nat) : list bool :=
  match n with
  | O => []
  | S k => true :: false :: alternate k
  end.

(** ** Properties *)

Example trim_lower_ex : toLowerCase (trim "  Test@Example.COM ") = "test@example.com".
Proof. reflexivity. Qed.

Example parseInt_ex1 : parseInt (Str "42") = Int 42.
Proof. reflexivity. Qed.

Example parseInt_ex2 : parseInt (Str " -17px") = Int (-17).
Proof. reflexivity. Qed.

Example parseInt_ex3 : parseInt Null = NaN.
Proof. reflexivity. Qed.

Example to_string_ex : to_string (Number (Int 1605000000000)) = "1605000000000".
Proof. vm_compute. reflexivity. Qed.

Example encodeURIComponent_ex1 :
  encodeURIComponent "user id@x.co" = "user%20id%40x.co".
Proof. reflexivity. Qed.

Example encodeURIComponent_ex2 :
  encodeURIComponent (String (ascii_of_N 233) "t") = "%C3%A9t".
Proof. reflexivity. Qed.

(** *** The handler, gate by gate *)

Ltac unfold_prog :=
  unfold serve, register, resolve, respond, redis_branch, supabase_branch,
    sample_branch, await, mbind, Prog_bind, mret, Prog_ret, error_response in *.

Lemma serve_not_post env req w :
  String.eqb (method req) "POST" = false ->
  serve env req w =
    {| result := Returned (error_response 501 "method_unknown"
                             "This endpoint only responds to POST");
       final := w; trace := [] |}.
Proof. intros H. unfold serve, register. rewrite H. reflexivity. Qed.

Lemma serve_throws env req w :
  String.eqb (method req) "POST" = true ->
  normalized_email req = None ->
  serve env req w = {| result := Threw (thrown req); final := w; trace := [] |}.
Proof.
  intros H1 H2. unfold serve, register, normalized_email, thrown in *. rewrite H1. simpl.
  destruct (req_body req); [reflexivity |].
  destruct (or_else _ _); try discriminate; reflexivity.
Qed.

Lemma serve_bad_email env req w e :
  String.eqb (method req) "POST" = true ->
  normalized_email req = Some e ->
  isEmail env e = false ->
  serve env req w =
    {| result := Returned (error_response 400 "bad_email" "Invalid email");
       final := w; trace := [] |}.
Proof.
  intros H1 H2 H3. unfold serve, register, normalized_email in *. rewrite H1. simpl.
  destruct (req_body req); [discriminate |].
  destruct (or_else _ _); try discriminate.
  injection H2 as <-. rewrite H3. reflexivity.
Qed.

Lemma serve_bad_captcha env req w e :
  String.eqb (method req) "POST" = true ->
  normalized_email req = Some e ->
  isEmail env e = true ->
  IS_CAPTCHA_ENABLED env = true ->
  captcha_answer env (tick w) (body_token req) = false ->
  serve env req w =
    {| result := Returned (error_response 400 "bad_captcha" "Invalid captcha");
       final := tock w;
       trace := [call (validateCaptchaResult (body_token req))] |}.
Proof.
  intros H1 H2 H3 H4 H5.
  unfold serve, register, normalized_email, body_token in *. rewrite H1. simpl.
  destruct (req_body req); [discriminate |].
  destruct (or_else _ _); try discriminate.
  injection H2 as <-. rewrite H3, H4. simpl. rewrite H5. reflexivity.
Qed.

Lemma serve_accepted env req w e :
  accepted env w req = Some e ->
  serve env req w =
    with_prefix (captcha_trace env (body_token req))
      (run env (resolve env e) (after_captcha env w)).
Proof.
  unfold accepted, passes_captcha, serve, register, normalized_email,
    captcha_trace, after_captcha, with_prefix, body_token.
  destruct (String.eqb (method req) "POST"); [simpl | discriminate].
  destruct (req_body req); [discriminate |].
  destruct (or_else _ _); try discriminate.
  destruct (isEmail env _) eqn:Hv; [simpl | discriminate].
  destruct (IS_CAPTCHA_ENABLED env); simpl.
  - destruct (captcha_answer _ _ _); [| discriminate].
    intros [= <-]. simpl. reflexivity.
  - intros [= <-]. destruct (run _ _ _); reflexivity.
Qed.

(** *** The backends, branch by branch *)

Lemma resolve_redis_existing env w e :
  redis env = true ->
  redis_registered env w e = true ->
  run env (resolve env e) w =
    {| result := Returned (success_response env e (redis_stored env w e)
                             (clock env (2 + tick w)));
       final := advance 3 w;
       trace := [call (hget (key_of env e) "ticketNumber");
                 call (hmget (key_of env e) ["name"; "username"; "createdAt"]);
                 call Date_now] |}.
Proof.
  intros Hr He. unfold redis_registered in He.
  unfold resolve. rewrite Hr. unfold_prog. simpl.
  rewrite He. reflexivity.
Qed.

Lemma resolve_redis_new env w e :
  redis env = true ->
  redis_registered env w e = false ->
  run env (resolve env e) w =
    {| result := Returned (success_response env e (redis_created env w e)
                             (clock env (4 + tick w)));
       final := redis_world_created env w e;
       trace := [call (hget (key_of env e) "ticketNumber");
                 call (incr "count");
                 call Date_now;
                 call (hmset (key_of env e) (redis_new_fields env w e));
                 call Date_now] |}.
Proof.
  intros Hr He. unfold redis_registered in He.
  unfold resolve. rewrite Hr. unfold_prog. simpl.
  rewrite He. reflexivity.
Qed.

Lemma resolve_supabase_existing env w e item :
  redis env = false ->
  supabase env = true ->
  supabase_lookup w e = Some item ->
  run env (resolve env e) w =
    {| result := Returned (success_response env e (supabase_stored item)
                             (clock env (1 + tick w)));
       final := advance 2 w;
       trace := [call (select_eq_email_single e); call Date_now] |}.
Proof.
  intros Hr Hs He. unfold supabase_lookup in He.
  unfold resolve. rewrite Hr, Hs. unfold_prog. simpl.
  rewrite He. reflexivity.
Qed.

Lemma resolve_supabase_new env w e :
  redis env = false ->
  supabase env = true ->
  supabase_lookup w e = None ->
  run env (resolve env e) w =
    {| result := Returned (success_response env e (supabase_created env w e)
                             (clock env (3 + tick w)));
       final := supabase_world_created env w e;
       trace := [call (select_eq_email_single e);
                 call select_count_exact;
                 call (insert_single (Z.of_nat (length (registrations w)) + 1)
                         Undefined e Undefined);
                 call Date_now] |}.
Proof.
  intros Hr Hs He. unfold supabase_lookup in He.
  unfold resolve. rewrite Hr, Hs. unfold_prog. simpl.
  rewrite He. reflexivity.
Qed.

Lemma resolve_sample env w e :
  redis env = false ->
  supabase env = false ->
  run env (resolve env e) w =
    {| result := Returned (success_response env e (sample_vars env w)
                             (clock env (2 + tick w)));
       final := advance 3 w;
       trace := [call nanoid; call Date_now; call Date_now] |}.
Proof.
  intros Hr Hs. unfold resolve. rewrite Hr, Hs. reflexivity.
Qed.

(** Every request ends in exactly one of five ways. *)
Lemma serve_cases env req w :
  (String.eqb (method req) "POST" = false /\
   serve env req w =
     {| result := Returned (error_response 501 "method_unknown"
                              "This endpoint only responds to POST");
        final := w; trace := [] |})
  \/ (String.eqb (method req) "POST" = true /\ normalized_email req = None /\
      serve env req w =
        {| result := Threw (thrown req); final := w; trace := [] |})
  \/ (exists e, String.eqb (method req) "POST" = true /\
        normalized_email req = Some e /\ isEmail env e = false /\
        serve env req w =
          {| result := Returned (error_response 400 "bad_email" "Invalid email");
             final := w; trace := [] |})
  \/ (exists e, String.eqb (method req) "POST" = true /\
        normalized_email req = Some e /\ isEmail env e = true /\
        IS_CAPTCHA_ENABLED env = true /\
        captcha_answer env (tick w) (body_token req) = false /\
        serve env req w =
          {| result := Returned (error_response 400 "bad_captcha" "Invalid captcha");
             final := tock w;
             trace := [call (validateCaptchaResult (body_token req))] |})
  \/ (exists e, accepted env w req = Some e /\
        serve env req w =
          with_prefix (captcha_trace env (body_token req))
            (run env (resolve env e) (after_captcha env w))).
Proof.
  destruct (String.eqb (method req) "POST") eqn:Hm.
  2: { left. split; [reflexivity | by apply serve_not_post]. }
  right. destruct (normalized_email req) as [e|] eqn:Hn.
  2: { left. repeat split; try assumption. by apply serve_throws. }
  right. destruct (isEmail env e) eqn:Hv.
  2: { left. exists e. repeat split; try assumption. by eapply serve_bad_email. }
  right. destruct (passes_captcha env w (body_token req)) eqn:Hc.
  - right. exists e.
    assert (accepted env w req = Some e) as Ha.
    { unfold accepted. by rewrite Hm, Hn, Hv, Hc. }
    split; [exact Ha | by apply serve_accepted].
  - left. exists e. unfold passes_captcha in Hc.
    destruct (IS_CAPTCHA_ENABLED env) eqn:Hen; [simpl in Hc | discriminate].
    repeat split; try assumption. by eapply serve_bad_captcha.
Qed.

(** Past the gates, a backend branch always answers with the success
    response built from its variables, with status 200 or 201. *)
Lemma resolve_cases env e w :
  exists v now w' t,
    run env (resolve env e) w =
      {| result := Returned (success_response env e v now); final := w'; trace := t |}
    /\ (var_statusCode v = 200 \/ var_statusCode v = 201)
    /\ forallb (fun c => negb (is_captcha_call c)) t = true.
Proof.
  destruct (redis env) eqn:Hr.
  - destruct (redis_registered env w e) eqn:He.
    + rewrite (resolve_redis_existing _ _ _ Hr He). simpl. eauto 10.
    + rewrite (resolve_redis_new _ _ _ Hr He). simpl. eauto 10.
  - destruct (supabase env) eqn:Hs.
    + destruct (supabase_lookup w e) as [item|] eqn:He.
      * rewrite (resolve_supabase_existing _ _ _ _ Hr Hs He). simpl. eauto 10.
      * rewrite (resolve_supabase_new _ _ _ Hr Hs He). simpl. eauto 10.
    + rewrite (resolve_sample _ _ _ Hr Hs). simpl. eauto 10.
Qed.

(** *** Status codes and errors *)

Lemma unreadable_normalized req :
  unreadable req = match normalized_email req with Some _ => false | None => true end.
Proof.
  unfold unreadable, normalized_email, or_else.
  destruct (req_body req) as [| e t]; [reflexivity |].
  destruct e as [| | b | n | s |]; simpl; try reflexivity.
  - by destruct b.
  - destruct n as [| z]; [reflexivity |]. by destruct (z =? 0)%Z.
  - rewrite andb_false_r. by destruct (negb (String.eqb s "")).
Qed.

(** C7, as the claim has it, fails: not every request gets a status.  A POST
    whose email is the number 42, and a POST whose JSON body is [null], make
    the handler throw: [register] sends no response and no status. *)
Lemma register_no_status_counterexample :
  let env := demo_env true false false in
  result (serve env (post (Number (Int 42)) Undefined) empty_world)
    = Threw "TypeError: trim is not a function"
  /\ status_of (serve env (post (Number (Int 42)) Undefined) empty_world) = None
  /\ status_of (serve env post_null empty_world) = None.
Proof. repeat split. Qed.

(** C7, amended: every response [register] sends carries status 200, 201,
    400 or 501; a method other than POST gets 501 with the code
    [method_unknown] (and only such a request gets 501); status 400 comes only
    with the codes [bad_email] and [bad_captcha].  The handler sends no
    response at all, throwing before any operation, exactly for the POST
    requests that have no body or whose email is a truthy value that is not a
    string. *)
Theorem register_status_codes env req w :
  match result (serve env req w) with
  | Returned r =>
      (status r = 200 \/ status r = 201 \/ status r = 400 \/ status r = 501)
      /\ (String.eqb (method req) "POST" = false ->
          r = error_response 501 "method_unknown" "This endpoint only responds to POST")
      /\ (status r = 501 -> String.eqb (method req) "POST" = false)
      /\ (status r = 400 ->
          r = error_response 400 "bad_email" "Invalid email"
          \/ r = error_response 400 "bad_captcha" "Invalid captcha")
      /\ (String.eqb (method req) "POST" = true -> unreadable req = false)
  | Threw msg =>
      String.eqb (method req) "POST" = true /\ unreadable req = true
      /\ msg = thrown req
      /\ trace (serve env req w) = [] /\ final (serve env req w) = w
  end.
Proof.
  rewrite unreadable_normalized.
  destruct (serve_cases env req w)
    as [[Hm ->] | [(Hm & Hn & ->) | [(e & Hm & Hn & Hv & ->)
       | [(e & Hm & Hn & Hv & Hen & Hc & ->) | (e & Ha & ->)]]]]; simpl.
  - rewrite Hm. repeat split; auto; discriminate.
  - rewrite Hn. auto.
  - rewrite Hm, Hn. repeat split; auto; try discriminate.
  - rewrite Hm, Hn. repeat split; auto; try discriminate.
  - destruct (resolve_cases env e (after_captcha env w))
      as (v & now & w' & t & -> & Hst & _). simpl.
    assert (String.eqb (method req) "POST" = true) as Hm.
    { unfold accepted in Ha. destruct (String.eqb _ _); [done | discriminate]. }
    assert (normalized_email req = Some e) as Hn.
    { unfold accepted in Ha. rewrite Hm in Ha.
      destruct (normalized_email req) as [e' |]; [| discriminate].
      destruct (_ && _); [by injection Ha as -> | discriminate]. }
    rewrite Hm, Hn. repeat split; try discriminate; destruct Hst as [-> | ->];
      auto; discriminate.
Qed.

(** C6: a POST request whose email, trimmed and lower-cased, is rejected by
    the email check is answered 400 [bad_email]; no operation at all is
    performed (empty trace), so no store is reached and the world is left as it
    was. *)
Theorem register_bad_email env req w e :
  method req = "POST" ->
  normalized_email req = Some e ->
  isEmail env e = false ->
  result (serve env req w) = Returned (error_response 400 "bad_email" "Invalid email")
  /\ status_of (serve env req w) = Some 400
  /\ error_code_of (serve env req w) = Some "bad_email"
  /\ trace (serve env req w) = []
  /\ final (serve env req w) = w.
Proof.
  intros Hm Hn Hv.
  assert (String.eqb (method req) "POST" = true) as Hm' by (by apply String.eqb_eq).
  unfold status_of, error_code_of.
  rewrite (serve_bad_email env req w e Hm' Hn Hv). simpl. auto.
Qed.

(** The two strings the specification names, on the stand-in validator. *)
Lemma register_bad_email_witness :
  (let env := demo_env true false true in
   let req := post (Str "not-an-email") (Str "good-token") in
   status_of (serve env req empty_world) = Some 400
   /\ error_code_of (serve env req empty_world) = Some "bad_email"
   /\ trace (serve env req empty_world) = []
   /\ final (serve env req empty_world) = empty_world)
  /\ (let env := demo_env false true false in
      let req := post (Str "") Undefined in
      status_of (serve env req empty_world) = Some 400
      /\ error_code_of (serve env req empty_world) = Some "bad_email"
      /\ trace (serve env req empty_world) = []
      /\ final (serve env req empty_world) = empty_world).
Proof.
  split; intros env req.
  - apply (register_bad_email env req empty_world "not-an-email"); reflexivity.
  - apply (register_bad_email env req empty_world ""); reflexivity.
Defined.

(** The two strings the specification names have no at sign: every email
    check that insists on one rejects them, and the requests that carry them,
    padded or not, are answered 400 [bad_email]. *)
Lemma register_rejects_named_strings env w token raw :
  (forall s, isEmail env s = true -> contains "@" s = true) ->
  raw = "not-an-email" \/ raw = "" \/ raw = "  Not-An-Email " ->
  result (serve env (post (Str raw) token) w)
    = Returned (error_response 400 "bad_email" "Invalid email")
  /\ trace (serve env (post (Str raw) token) w) = []
  /\ final (serve env (post (Str raw) token) w) = w.
Proof.
  intros Hat Hraw.
  assert (exists e, normalized_email (post (Str raw) token) = Some e
                    /\ contains "@" e = false) as (e & Hn & Hc).
  { destruct Hraw as [-> | [-> | ->]]; eexists; split; reflexivity. }
  assert (isEmail env e = false) as Hv.
  { destruct (isEmail env e) eqn:Hv; [| reflexivity].
    apply Hat in Hv. congruence. }
  rewrite (serve_bad_email env (post (Str raw) token) w e eq_refl Hn Hv). simpl. auto.
Qed.

(** C5: with captcha enforcement on, a POST request with a well-formed email
    whose token the validator rejects is answered 400 [bad_captcha]; the only
    operation performed is the call of the validator, no store is read or
    written, and the stores are left as they were. *)
Theorem register_bad_captcha env req w e :
  IS_CAPTCHA_ENABLED env = true ->
  method req = "POST" ->
  normalized_email req = Some e ->
  isEmail env e = true ->
  captcha_answer env (tick w) (body_token req) = false ->
  result (serve env req w) = Returned (error_response 400 "bad_captcha" "Invalid captcha")
  /\ status_of (serve env req w) = Some 400
  /\ error_code_of (serve env req w) = Some "bad_captcha"
  /\ trace (serve env req w) = [call (validateCaptchaResult (body_token req))]
  /\ forallb (fun c => negb (is_store_call c)) (trace (serve env req w)) = true
  /\ same_store w (final (serve env req w)).
Proof.
  intros Hen Hm Hn Hv Hc.
  assert (String.eqb (method req) "POST" = true) as Hm' by (by apply String.eqb_eq).
  unfold status_of, error_code_of.
  rewrite (serve_bad_captcha env req w e Hm' Hn Hv Hen Hc). simpl.
  unfold same_store. simpl. auto 10.
Qed.

Lemma register_bad_captcha_witness :
  let env := demo_env true false true in
  let req := post (Str "Test@Example.com") (Str "forged") in
  status_of (serve env req empty_world) = Some 400
  /\ error_code_of (serve env req empty_world) = Some "bad_captcha"
  /\ trace (serve env req empty_world) = [call (validateCaptchaResult (Str "forged"))]
  /\ forallb (fun c => negb (is_store_call c)) (trace (serve env req empty_world)) = true
  /\ same_store empty_world (final (serve env req empty_world)).
Proof.
  intros env req.
  apply (register_bad_captcha env req empty_world "test@example.com"); reflexivity.
Defined.




(** C10: with captcha enforcement off, the outcome of a request does not
    depend on its token: two requests with the same method and the same email
    field (both with a body, or both without) get the same response (status,
    cookie and body), leave the same world behind and perform the same
    operations, and the captcha validator is not among them. *)
Theorem register_ignores_token env req1 req2 w :
  IS_CAPTCHA_ENABLED env = false ->
  method req1 = method req2 ->
  has_body req1 = has_body req2 ->
  body_email req1 = body_email req2 ->
  serve env req1 w = serve env req2 w
  /\ forallb (fun c => negb (is_captcha_call c)) (trace (serve env req1 w)) = true.
Proof.
  intros Hen Hm Hb He. split.
  - unfold serve, register, has_body, body_email in *. rewrite Hm, Hen.
    destruct (req_body req1), (req_body req2); try discriminate; [reflexivity |].
    subst. reflexivity.
  - destruct (serve_cases env req1 w)
      as [[_ ->] | [(_ & _ & ->) | [(e & _ & _ & _ & ->)
         | [(e & _ & _ & _ & Hen' & _) | (e & Ha & ->)]]]]; simpl; try reflexivity.
    + congruence.
    + destruct (resolve_cases env e (after_captcha env w))
        as (v & now & w' & t & -> & _ & Ht).
      unfold captcha_trace. rewrite Hen. simpl. exact Ht.
Qed.

Lemma register_ignores_token_witness :
  let env := demo_env true false false in
  let req1 := post (Str "a@example.com") (Str "good-token") in
  let req2 := post (Str "a@example.com") Undefined in
  serve env req1 empty_world = serve env req2 empty_world
  /\ forallb (fun c => negb (is_captcha_call c)) (trace (serve env req1 empty_world)) = true.
Proof.
  intros env req1 req2.
  apply (register_ignores_token env req1 req2 empty_world); reflexivity.
Defined.

(** *** The session cookie *)

(** Every response with a success status (200 or 201) sets the session
    cookie, named [COOKIE], from the variable [id] the body is built from. *)
Theorem cookie_id_matches_body env req w r :
  result (serve env req w) = Returned r ->
  status r = 200 \/ status r = 201 ->
  exists c u,
    set_cookie r = Some c /\ body r = UserBody u
    /\ cookie_name c = COOKIE env
    /\ cookie_value c = id u.
Proof.
  intros Hr Hst.
  destruct (serve_cases env req w)
    as [[_ H] | [(_ & _ & H) | [(e & _ & _ & _ & H)
       | [(e & _ & _ & _ & _ & _ & H) | (e & Ha & H)]]]];
    rewrite H in Hr; simpl in Hr.
  - injection Hr as <-. simpl in Hst. lia.
  - discriminate.
  - injection Hr as <-. simpl in Hst. lia.
  - injection Hr as <-. simpl in Hst. lia.
  - destruct (resolve_cases env e (after_captcha env w))
      as (v & now & w' & t & Hrun & _ & _).
    rewrite Hrun in Hr. simpl in Hr. injection Hr as <-.
    simpl. eauto 10.
Qed.

(** Where the handler has an id in hand (a string: always on the key-value
    backend and without a backend), the cookie carries it, encoded, and the
    body carries it too. *)
Lemma cookie_pair_matches_sent_id env req w r :
  result (serve env req w) = Returned r ->
  status r = 200 \/ status r = 201 ->
  redis env = true \/ supabase env = false ->
  exists c u s,
    set_cookie r = Some c /\ body r = UserBody u
    /\ sent_id u = Some (Str s)
    /\ cookie_pair c = COOKIE env +:+ "=" +:+ encodeURIComponent s.
Proof.
  intros Hres Hst Hback.
  destruct (serve_cases env req w)
    as [[_ H] | [(_ & _ & H) | [(e & _ & _ & _ & H)
       | [(e & _ & _ & _ & _ & _ & H) | (e & Ha & H)]]]];
    rewrite H in Hres; simpl in Hres.
  - injection Hres as <-. simpl in Hst. lia.
  - discriminate.
  - injection Hres as <-. simpl in Hst. lia.
  - injection Hres as <-. simpl in Hst. lia.
  - destruct (redis env) eqn:Hr.
    + destruct (redis_registered env (after_captcha env w) e) eqn:He.
      * rewrite (resolve_redis_existing _ _ _ Hr He) in Hres. simpl in Hres.
        injection Hres as <-. do 3 eexists. repeat split.
      * rewrite (resolve_redis_new _ _ _ Hr He) in Hres. simpl in Hres.
        injection Hres as <-. do 3 eexists. repeat split.
    + destruct Hback as [Hb | Hs]; [discriminate |].
      rewrite (resolve_sample _ _ _ Hr Hs) in Hres. simpl in Hres.
      injection Hres as <-. do 3 eexists. repeat split.
Qed.

(** C4, where the code departs from it: on the relational backend the first
    request creates the row, and the cookie and the body both carry its id;
    the same request repeated is answered 200 with the cookie
    [user-id=undefined] and a body without any [id], the found-row path never
    assigning the variable the two are built from. *)
Theorem supabase_repeat_cookie_without_body_id :
  let env := demo_env false true false in
  let req := post (Str "a@example.com") Undefined in
  let o1 := serve env req empty_world in
  let o2 := serve env req (final o1) in
  status_of o1 = Some 201
  /\ cookie_pair <$> cookie_of o1 = Some "user-id=uuid-2"
  /\ user_of o1 ≫= sent_id = Some (Str "uuid-2")
  /\ status_of o2 = Some 200
  /\ cookie_pair <$> cookie_of o2 = Some "user-id=undefined"
  /\ user_of o2 ≫= sent_id = None.
Proof. vm_compute. repeat split. Qed.

(** *** No backend configured *)

Lemma accepted_is_post env w req e :
  accepted env w req = Some e -> String.eqb (method req) "POST" = true.
Proof. unfold accepted. destruct (String.eqb _ _); [done | discriminate]. Qed.

Lemma after_captcha_store env w : same_store w (after_captcha env w).
Proof. unfold after_captcha, same_store. destruct (IS_CAPTCHA_ENABLED env); simpl; auto. Qed.

Lemma after_captcha_tick env w : (tick w <= tick (after_captcha env w))%nat.
Proof. unfold after_captcha. destruct (IS_CAPTCHA_ENABLED env); simpl; lia. Qed.

(** C8, as the claim has it, fails: without a backend an accepted request is
    answered 200, the status of the branches that find an existing
    registration, and not 201, the status the handler gives to a creation. *)
Lemma sample_mode_status_counterexample :
  let env := demo_env false false false in
  let req := post (Str "a@example.com") Undefined in
  redis env = false /\ supabase env = false
  /\ accepted env empty_world req = Some "a@example.com"
  /\ status_of (serve env req empty_world) = Some OK
  /\ status_of (serve env req empty_world) <> Some CREATED.
Proof. repeat split; discriminate. Qed.

(** C8, amended: with neither backend configured, every accepted request is
    answered with the placeholder ticket number and with the id the random
    generator draws for this very call, under status 200; nothing is stored;
    and the next accepted request draws again, later, so that its id differs
    whenever the generator does not repeat itself. *)
Theorem register_sample_mode env req w e :
  redis env = false ->
  supabase env = false ->
  accepted env w req = Some e ->
  let o := serve env req w in
  let t := tick (after_captcha env w) in
  status_of o = Some 200
  /\ user_of o = Some {| id := Str (random_id env t);
                         email := e;
                         ticketNumber := Int (SAMPLE_TICKET_NUMBER env);
                         createdAt := Int (clock env (1 + t));
                         name := Undefined;
                         username := Undefined |}
  /\ trace o = (captcha_trace env (body_token req)
                  ++ [call nanoid; call Date_now; call Date_now])%list
  /\ same_store w (final o)
  /\ forall req' e',
       accepted env (final o) req' = Some e' ->
       exists t',
         (t < t')%nat
         /\ id <$> user_of (serve env req' (final o)) = Some (Str (random_id env t'))
         /\ ((forall a b, random_id env a = random_id env b -> a = b) ->
             id <$> user_of (serve env req' (final o)) <> id <$> user_of o).
Proof.
  intros Hr Hs Ha o t. subst o.
  rewrite (serve_accepted _ _ _ _ Ha), (resolve_sample _ _ _ Hr Hs).
  unfold status_of, user_of. simpl. repeat split; try apply after_captcha_store.
  intros req' e' Ha'.
  rewrite (serve_accepted _ _ _ _ Ha'), (resolve_sample _ _ _ Hr Hs). simpl.
  set (w' := advance 3 (after_captcha env w)).
  exists (tick (after_captcha env w')).
  assert (t < tick (after_captcha env w'))%nat as Hlt.
  { pose proof (after_captcha_tick env w'). subst w' t. simpl in *. lia. }
  repeat split; [exact Hlt |].
  intros Hinj [= Heq]. apply Hinj in Heq. subst t. lia.
Qed.

Lemma register_sample_mode_witness :
  let env := demo_env false false true in
  let req := post (Str " A@Example.com ") (Str "good-token") in
  let o := serve env req empty_world in
  status_of o = Some 200
  /\ user_of o = Some {| id := Str "nano-1";
                         email := "a@example.com";
                         ticketNumber := Int 1234;
                         createdAt := Int 1600000000002;
                         name := Undefined;
                         username := Undefined |}
  /\ trace o = [call (validateCaptchaResult (Str "good-token"));
                call nanoid; call Date_now; call Date_now]
  /\ same_store empty_world (final o).
Proof.
  intros env req o.
  pose proof (register_sample_mode env req empty_world "a@example.com"
                eq_refl eq_refl eq_refl) as (H1 & H2 & H3 & H4 & _).
  exact (conj H1 (conj H2 (conj H3 H4))).
Defined.

(** *** The relational backend *)

Lemma register_is_resolve env w req e :
  IS_CAPTCHA_ENABLED env = false ->
  accepted env w req = Some e ->
  register env req = resolve env e.
Proof.
  unfold accepted, register, normalized_email. intros Hen.
  destruct (String.eqb (method req) "POST"); [simpl | discriminate].
  destruct (req_body req); [discriminate |].
  destruct (or_else _ _); try discriminate.
  destruct (isEmail env _); [simpl | discriminate].
  rewrite Hen. destruct (passes_captcha _ _ _); [| discriminate].
  by intros [= <-].
Qed.

(** The handler of an accepted request: the captcha call when enforcement is
    on, then the backend. *)
Lemma register_accepted env w req e :
  accepted env w req = Some e ->
  register env req =
    (if IS_CAPTCHA_ENABLED env then
       Await (validateCaptchaResult (body_token req))
         (fun ok => if negb ok
                    then Return (error_response 400 "bad_captcha" "Invalid captcha")
                    else resolve env e)
     else resolve env e)
  /\ (IS_CAPTCHA_ENABLED env = true ->
      captcha_answer env (tick w) (body_token req) = true).
Proof.
  unfold accepted, register, normalized_email, passes_captcha, body_token.
  destruct (String.eqb (method req) "POST"); [simpl | discriminate].
  destruct (req_body req); [discriminate |].
  destruct (or_else _ _); try discriminate.
  destruct (isEmail env _); [simpl | discriminate].
  destruct (IS_CAPTCHA_ENABLED env); simpl.
  - destruct (captcha_answer _ _ _); [| discriminate]. intros [= <-]. auto.
  - intros [= <-]. split; [reflexivity | discriminate].
Qed.

Lemma supabase_lookup_after_captcha env w e :
  supabase_lookup (after_captcha env w) e = supabase_lookup w e.
Proof. unfold after_captcha. by destruct (IS_CAPTCHA_ENABLED env). Qed.

(** C3: on the relational backend, an accepted request for an email the
    lookup does not find is answered 201 with the number of rows of the table
    plus one as ticket number; the count and the insert are two operations,
    performed in this order, and the inserted row carries that number.
    Nothing ties the two together: when two such requests advance in
    lockstep, each counts before the other inserts, and both are answered
    with the same ticket number while two rows are inserted. *)
Theorem supabase_ticket_is_count_plus_one env req w e :
  redis env = false ->
  supabase env = true ->
  accepted env w req = Some e ->
  supabase_lookup w e = None ->
  let o := serve env req w in
  let n := Z.of_nat (length (registrations w)) in
  status_of o = Some 201
  /\ ticketNumber <$> user_of o = Some (Int (n + 1))
  /\ trace o = (captcha_trace env (body_token req)
                  ++ [call (select_eq_email_single e);
                      call select_count_exact;
                      call (insert_single (n + 1) Undefined e Undefined);
                      call Date_now])%list
  /\ (exists r, registrations (final o) = (registrations w ++ [r])%list
                /\ row_email r = Str e
                /\ row_ticket_number r = Number (Int (n + 1)))
  /\ forall req2 e2,
       IS_CAPTCHA_ENABLED env = false ->
       accepted env w req2 = Some e2 ->
       supabase_lookup w e2 = None ->
       exists r1 r2 w',
         interleave env lockstep (register env req) (register env req2) w
           = (Return r1, Return r2, w')
         /\ status r1 = 201 /\ status r2 = 201
         /\ (exists u1 u2, body r1 = UserBody u1 /\ body r2 = UserBody u2
               /\ ticketNumber u1 = Int (n + 1) /\ ticketNumber u2 = Int (n + 1))
         /\ length (registrations w') = (2 + length (registrations w))%nat.
Proof.
  intros Hr Hs Ha He o n. subst o n.
  rewrite (serve_accepted _ _ _ _ Ha).
  pose proof (supabase_lookup_after_captcha env w e) as He'. rewrite He in He'.
  rewrite (resolve_supabase_new _ _ _ Hr Hs He').
  pose proof (after_captcha_store env w) as (_ & _ & Hreg).
  unfold status_of, user_of. simpl. rewrite Hreg.
  split; [reflexivity |]. split; [reflexivity |]. split; [reflexivity |]. split.
  { eexists. split; [reflexivity |]. split; [reflexivity |].
    unfold supabase_new_row, inserted_row. simpl. by rewrite Hreg. }
  intros req2 e2 Hen Ha2 He2.
  rewrite (register_is_resolve _ _ _ _ Hen Ha), (register_is_resolve _ _ _ _ Hen Ha2).
  unfold supabase_lookup in He, He2.
  unfold resolve. rewrite Hr, Hs. unfold_prog. simpl.
  rewrite He, He2. simpl.
  do 3 eexists. split; [reflexivity |]. simpl.
  split; [reflexivity |]. split; [reflexivity |]. split.
  - do 2 eexists. repeat split.
  - rewrite !length_app. simpl. lia.
Qed.

Lemma supabase_ticket_is_count_plus_one_witness :
  let env := demo_env false true false in
  let req := post (Str "a@example.com") Undefined in
  let req2 := post (Str "b@example.com") Undefined in
  let o := serve env req empty_world in
  status_of o = Some 201
  /\ ticketNumber <$> user_of o = Some (Int 1)
  /\ exists r1 r2 w',
       interleave env lockstep (register env req) (register env req2) empty_world
         = (Return r1, Return r2, w')
       /\ status r1 = 201 /\ status r2 = 201
       /\ (exists u1 u2, body r1 = UserBody u1 /\ body r2 = UserBody u2
             /\ ticketNumber u1 = Int 1 /\ ticketNumber u2 = Int 1)
       /\ length (registrations w') = 2%nat.
Proof.
  intros env req req2 o.
  pose proof (supabase_ticket_is_count_plus_one env req empty_world "a@example.com"
                eq_refl eq_refl eq_refl eq_refl) as (H1 & H2 & _ & _ & H5).
  split; [exact H1 |]. split; [exact H2 |].
  exact (H5 req2 "b@example.com" eq_refl eq_refl eq_refl).
Defined.

(** *** The key-value backend *)

Lemma count_after_captcha env w : count (after_captcha env w) = count w.
Proof. unfold after_captcha. by destruct (IS_CAPTCHA_ENABLED env). Qed.

Lemma redis_registered_after_captcha env w e :
  redis_registered env (after_captcha env w) e = redis_registered env w e.
Proof. unfold after_captcha. by destruct (IS_CAPTCHA_ENABLED env). Qed.

Lemma count_redis_world_created env w e :
  count (redis_world_created env w e) = count w + 1.
Proof. unfold count at 1. simpl. by rewrite lookup_insert_eq. Qed.

(** A request either leaves the counter alone and hands out no ticket, or
    increments it once and hands out its new value. *)
Lemma redis_serve_counter env req w :
  redis env = true ->
  (assigned_ticket (serve env req w) = None
   /\ count (final (serve env req w)) = count w)
  \/ (assigned_ticket (serve env req w) = Some (count w + 1)
      /\ count (final (serve env req w)) = count w + 1).
Proof.
  intros Hr.
  destruct (serve_cases env req w)
    as [[_ ->] | [(_ & _ & ->) | [(e & _ & _ & _ & ->)
       | [(e & _ & _ & _ & _ & _ & ->) | (e & Ha & ->)]]]]; simpl; auto.
  destruct (redis_registered env (after_captcha env w) e) eqn:He.
  - rewrite (resolve_redis_existing _ _ _ Hr He). left.
    split; [reflexivity | apply count_after_captcha].
  - rewrite (resolve_redis_new _ _ _ Hr He). right.
    unfold assigned_ticket. simpl.
    rewrite count_redis_world_created, !count_after_captcha.
    split; reflexivity.
Qed.

Lemma tickets_above_counter env reqs :
  redis env = true ->
  forall w, Forall (fun t => count w < t) (tickets env reqs w).
Proof.
  intros Hr. induction reqs as [| req reqs IH]; intros w; [constructor |].
  unfold tickets in *. simpl.
  specialize (IH (final (serve env req w))).
  destruct (redis_serve_counter env req w Hr) as [[-> Hc] | [-> Hc]];
    rewrite Hc in IH.
  - exact IH.
  - constructor; [lia |]. eapply Forall_impl; [exact IH |]. simpl. intros; lia.
Qed.

Lemma tickets_increasing env reqs :
  redis env = true ->
  forall w, StronglySorted Z.lt (tickets env reqs w).
Proof.
  intros Hr. induction reqs as [| req reqs IH]; intros w; [constructor |].
  pose proof (tickets_above_counter env reqs Hr (final (serve env req w))) as Hab.
  specialize (IH (final (serve env req w))).
  unfold tickets in *. simpl.
  destruct (redis_serve_counter env req w Hr) as [[-> Hc] | [-> Hc]].
  - exact IH.
  - constructor; [exact IH |]. rewrite Hc in Hab. exact Hab.
Qed.


(** *** Numbers written to the store and read back *)

Lemma small_N_cases (y : N) :
  (y < 10)%N ->
  (y = 0 \/ y = 1 \/ y = 2 \/ y = 3 \/ y = 4 \/ y = 5 \/ y = 6 \/ y = 7 \/ y = 8 \/ y = 9)%N.
Proof. lia. Qed.

Lemma digit_of_pretty_N_char (y : N) :
  (y < 10)%N -> digit_of (pretty_N_char y) = Some (Z.of_N y).
Proof.
  intros Hy. destruct (small_N_cases y Hy) as [-> | [-> | [-> | [-> | [-> | [-> | [-> | [-> | [-> | ->]]]]]]]]];
    reflexivity.
Qed.

(** Reading the digits [pretty_N_go] writes appends them to the number read
    so far. *)
Lemma read_digits_pretty_N_go (x : N) :
  exists k : nat, forall acc s,
    read_digits acc (pretty_N_go x s) = read_digits (acc * 10 ^ Z.of_nat k + Z.of_N x) s.
Proof.
  induction (N.lt_wf_0 x) as [x _ IH].
  destruct (decide (x = 0)%N) as [-> | Hx].
  - exists 0%nat. intros acc s. rewrite pretty_N_go_0. f_equal. simpl. lia.
  - assert (0 < x)%N as Hpos by lia.
    destruct (IH (x `div` 10)%N) as [k Hk]; [by apply N.div_lt |].
    exists (S k). intros acc s.
    rewrite pretty_N_go_step by done. rewrite Hk. simpl.
    rewrite digit_of_pretty_N_char by (by apply N.mod_lt).
    f_equal. rewrite Nat2Z.inj_succ, Z.pow_succ_r by lia.
    rewrite N2Z.inj_div, N2Z.inj_mod.
    pose proof (Z.div_mod (Z.of_N x) 10 ltac:(lia)).
    change (Z.of_N 10) with 10. lia.
Qed.

Lemma pretty_N_go_head (x : N) :
  (0 < x)%N ->
  forall s, exists y r, (y < 10)%N /\ pretty_N_go x s = String (pretty_N_char y) r.
Proof.
  induction (N.lt_wf_0 x) as [x _ IH]. intros Hpos s.
  rewrite pretty_N_go_step by done.
  destruct (decide (x `div` 10 = 0)%N) as [Hz | Hnz].
  - rewrite Hz, pretty_N_go_0. exists (x `mod` 10)%N, s.
    split; [by apply N.mod_lt | reflexivity].
  - apply IH; [by apply N.div_lt | by apply N.neq_0_lt_0].
Qed.

Lemma parse_unsigned_digit_head (y : N) (r : string) :
  (y < 10)%N ->
  parse_unsigned (String (pretty_N_char y) r)
    = Int (read_digits 0 (String (pretty_N_char y) r))
  /\ parseInt_string (String (pretty_N_char y) r)
    = Int (read_digits 0 (String (pretty_N_char y) r)).
Proof.
  intros Hy. destruct (small_N_cases y Hy) as [-> | [-> | [-> | [-> | [-> | [-> | [-> | [-> | [-> | ->]]]]]]]]];
    split; reflexivity.
Qed.

Lemma parse_pretty_N_go (x : N) :
  (0 < x)%N ->
  parse_unsigned (pretty_N_go x "") = Int (Z.of_N x)
  /\ parseInt_string (pretty_N_go x "") = Int (Z.of_N x).
Proof.
  intros Hpos.
  destruct (pretty_N_go_head x Hpos "") as (y & r & Hy & Heq).
  destruct (parse_unsigned_digit_head y r Hy) as [H1 H2].
  destruct (read_digits_pretty_N_go x) as [k Hk].
  rewrite Heq, H1, H2, <- Heq, Hk. simpl. split; reflexivity.
Qed.

(** A number that went through ToString comes back from [parseInt]. *)
Lemma parseInt_to_string (z : Z) : parseInt (Number (Int z)) = Int z.
Proof.
  unfold parseInt. simpl. destruct z as [| p | p].
  - reflexivity.
  - apply (parse_pretty_N_go (N.pos p)). lia.
  - change (pretty (Z.neg p)) with (String "-" (pretty_N_go (N.pos p) "")).
    unfold parseInt_string. simpl.
    destruct (parse_pretty_N_go (N.pos p)) as [-> _]; [lia | reflexivity].
Qed.

Lemma parseInt_pretty (z : Z) : parseInt (Str (pretty z)) = Int z.
Proof. exact (parseInt_to_string z). Qed.

(** What ToString produces is never the empty string, hence truthy. *)
Lemma pretty_truthy (z : Z) : truthy (Str (pretty z)) = true.
Proof.
  destruct z as [| p | p]; [reflexivity | | reflexivity].
  destruct (pretty_N_go_head (N.pos p) ltac:(lia) "") as (y & r & _ & Heq).
  change (pretty (Z.pos p)) with (pretty_N_go (N.pos p) ""). by rewrite Heq.
Qed.

(** *** Concurrent requests on the key-value backend *)

Lemma perform_count_incr env w key :
  count (perform env (incr key) w).2
  = if decide (key = "count") then count w + 1 else count w.
Proof.
  unfold count. simpl. case_decide as Hk.
  - subst key. unfold redis_incr. by rewrite lookup_insert_eq.
  - by rewrite lookup_insert_ne.
Qed.

Lemma perform_count_mono env {X} (op : Op X) w :
  count w <= count (perform env op w).2.
Proof.
  destruct op; try (simpl; unfold count; simpl; lia).
  rewrite perform_count_incr. case_decide; lia.
Qed.

(** One step of a handler keeps it in its phase, or moves it from waiting to
    holding the value the counter has just reached. *)
Lemma step_phase env p w ph :
  in_phase p ph ->
  phase_below ph (count w) ->
  exists ph',
    in_phase (step env p w).1 ph'
    /\ phase_below ph' (count (step env p w).2)
    /\ count w <= count (step env p w).2
    /\ (ph' = ph \/ (ph = Waiting /\ ph' = Holding (count (step env p w).2)
                     /\ count w < count (step env p w).2)).
Proof.
  intros Hin Hb. destruct p as [r | msg | X op k]; simpl.
  - exists ph. split_and!; auto; lia.
  - exists ph. split_and!; auto; lia.
  - pose proof (perform_count_mono env op w) as Hmono.
    destruct ph as [| t]; simpl in Hin.
    + destruct op;
        try (exists Waiting; split_and!; [apply Hin | exact I | exact Hmono | by left]).
      destruct Hin as [-> Hk].
      pose proof (perform_count_incr env w "count") as Hc.
      rewrite decide_True in Hc by done.
      exists (Holding (count (perform env (incr "count") w).2)).
      split_and!.
      * simpl. simpl in Hc. rewrite Hc. apply Hk.
      * apply Z.le_refl.
      * exact Hmono.
      * right. split_and!; [done | done | rewrite Hc; lia].
    + exists (Holding t). split_and!; simpl; [apply Hin | simpl in Hb; lia | lia | by left].
Qed.

(** Two handlers in flight, however their steps are interleaved, never hold
    the same ticket. *)
Lemma interleave_phases env schedule :
  forall p q w ph1 ph2,
    in_phase p ph1 -> in_phase q ph2 ->
    phase_below ph1 (count w) -> phase_below ph2 (count w) ->
    phases_apart ph1 ph2 ->
    exists ph1' ph2',
      in_phase (interleave env schedule p q w).1.1 ph1'
      /\ in_phase (interleave env schedule p q w).1.2 ph2'
      /\ phases_apart ph1' ph2'.
Proof.
  induction schedule as [| b rest IH]; intros p q w ph1 ph2 Hp Hq Hb1 Hb2 Hap.
  - simpl. eauto.
  - destruct b; simpl.
    + destruct (step_phase env p w ph1 Hp Hb1) as (ph1' & Hp' & Hb1' & Hmono & Hch).
      apply (IH _ q _ ph1' ph2); auto.
      * destruct ph2; simpl in *; [exact I | lia].
      * destruct Hch as [-> | (-> & -> & Hlt)]; [exact Hap |].
        destruct ph2; simpl in *; [exact I | lia].
    + destruct (step_phase env q w ph2 Hq Hb2) as (ph2' & Hq' & Hb2' & Hmono & Hch).
      apply (IH p _ _ ph1 ph2'); auto.
      * destruct ph1; simpl in *; [exact I | lia].
      * destruct Hch as [-> | (-> & -> & Hlt)]; [exact Hap |].
        destruct ph1; simpl in *; [exact I | lia].
Qed.

(** On the key-value backend every request starts without a ticket. *)
Lemma register_awaits_ticket env req :
  redis env = true -> awaits_ticket (register env req).
Proof.
  intros Hr.
  assert (forall e, awaits_ticket (resolve env e)) as Hres.
  { intros e. unfold resolve. rewrite Hr. unfold_prog. simpl.
    intros x. destruct (truthy (reply x)); simpl.
    - intros item now. simpl. discriminate.
    - split; [reflexivity |]. intros t now [] now'. simpl. reflexivity. }
  unfold register.
  destruct (String.eqb (method req) "POST"); simpl; [| discriminate].
  destruct (req_body req); [exact I |].
  destruct (or_else _ _); simpl; try exact I.
  destruct (isEmail env _); simpl; [| discriminate].
  destruct (IS_CAPTCHA_ENABLED env); [| apply Hres].
  unfold_prog. simpl. intros ok. destruct ok; simpl; [apply Hres | discriminate].
Qed.

(** Whatever the interleaving of two requests on the key-value backend, two
    responses 201 carry different ticket numbers. *)
Lemma redis_concurrent_tickets_differ env req1 req2 w schedule r1 r2 w' :
  redis env = true ->
  interleave env schedule (register env req1) (register env req2) w
    = (Return r1, Return r2, w') ->
  status r1 = 201 -> status r2 = 201 ->
  exists t1 t2,
    ticket_of_response r1 = Some (Int t1)
    /\ ticket_of_response r2 = Some (Int t2)
    /\ t1 <> t2.
Proof.
  intros Hr Hrun Hs1 Hs2.
  destruct (interleave_phases env schedule (register env req1) (register env req2)
              w Waiting Waiting) as (ph1 & ph2 & H1 & H2 & Hap);
    try apply register_awaits_ticket; try exact I; try exact Hr.
  rewrite Hrun in H1, H2. simpl in H1, H2.
  destruct ph1 as [| t1]; simpl in H1; [contradiction |].
  destruct ph2 as [| t2]; simpl in H2; [contradiction |].
  exists t1, t2. auto.
Qed.

(** C2: on the key-value backend, an accepted request for an email that is
    not registered yet is answered 201, and its ticket number is the value the
    increment of the counter [count] returns, the old value plus one; the
    counter is incremented once, by one operation.  Hence, whatever requests
    follow and from whatever world, the ticket numbers handed out by creations
    come out strictly increasing, each above every one handed out before and
    above the counter the run started from.  The increment being one
    operation, a second request in flight at the same time, however the two
    are interleaved, cannot be answered 201 with the same ticket number. *)
Theorem redis_ticket_from_counter env req w e :
  redis env = true ->
  accepted env w req = Some e ->
  redis_registered env w e = false ->
  let o := serve env req w in
  status_of o = Some 201
  /\ ticketNumber <$> user_of o = Some (Int (count w + 1))
  /\ assigned_ticket o = Some (count w + 1)
  /\ trace o = (captcha_trace env (body_token req)
                  ++ [call (hget (key_of env e) "ticketNumber");
                      call (incr "count");
                      call Date_now;
                      call (hmset (key_of env e)
                              [("email", Str e);
                               ("ticketNumber", Number (Int (count w + 1)));
                               ("createdAt",
                                Number (Int (clock env (2 + tick (after_captcha env w)))))]);
                      call Date_now])%list
  /\ count (final o) = count w + 1
  /\ redis_hget (final o) (key_of env e) "ticketNumber" = Some (pretty (count w + 1))
  /\ (forall reqs,
        StronglySorted Z.lt (tickets env (req :: reqs) w)
        /\ Forall (fun t => count w < t) (tickets env (req :: reqs) w)
        /\ head (tickets env (req :: reqs) w) = Some (count w + 1))
  /\ forall req2 schedule r1 r2 w',
       interleave env schedule (register env req) (register env req2) w
         = (Return r1, Return r2, w') ->
       status r1 = 201 -> status r2 = 201 ->
       exists t1 t2,
         ticket_of_response r1 = Some (Int t1)
         /\ ticket_of_response r2 = Some (Int t2)
         /\ t1 <> t2.
Proof.
  intros Hr Ha He o. subst o.
  rewrite <- (redis_registered_after_captcha env w e) in He.
  split_and!.
  - rewrite (serve_accepted _ _ _ _ Ha), (resolve_redis_new _ _ _ Hr He). reflexivity.
  - rewrite (serve_accepted _ _ _ _ Ha), (resolve_redis_new _ _ _ Hr He).
    unfold user_of. simpl. by rewrite count_after_captcha.
  - rewrite (serve_accepted _ _ _ _ Ha), (resolve_redis_new _ _ _ Hr He).
    unfold assigned_ticket. simpl. by rewrite count_after_captcha.
  - rewrite (serve_accepted _ _ _ _ Ha), (resolve_redis_new _ _ _ Hr He).
    unfold redis_new_fields. simpl. by rewrite count_after_captcha.
  - rewrite (serve_accepted _ _ _ _ Ha), (resolve_redis_new _ _ _ Hr He). simpl.
    by rewrite count_redis_world_created, count_after_captcha.
  - rewrite (serve_accepted _ _ _ _ Ha), (resolve_redis_new _ _ _ Hr He). simpl.
    unfold redis_hget. simpl. rewrite lookup_insert_eq. simpl.
    rewrite lookup_insert_ne by done. rewrite lookup_insert_eq.
    by rewrite count_after_captcha.
  - intros reqs.
    pose proof (tickets_increasing env (req :: reqs) Hr w) as Hs.
    pose proof (tickets_above_counter env (req :: reqs) Hr w) as Hf.
    split_and!; [exact Hs | exact Hf |].
    unfold tickets. simpl.
    rewrite (serve_accepted _ _ _ _ Ha), (resolve_redis_new _ _ _ Hr He).
    unfold assigned_ticket at 1. simpl. by rewrite count_after_captcha.
  - intros req2 schedule r1 r2 w' Hrun Hs1 Hs2.
    by apply (redis_concurrent_tickets_differ env req req2 w schedule r1 r2 w').
Qed.

Lemma redis_ticket_from_counter_witness :
  let env := demo_env true false false in
  let req := post (Str "test@example.com") Undefined in
  let o := serve env req empty_world in
  status_of o = Some 201
  /\ ticketNumber <$> user_of o = Some (Int 1)
  /\ count (final o) = 1
  /\ StronglySorted Z.lt
       (tickets env [req; req; post (Str "b@example.com") Undefined] empty_world)
  /\ tickets env [req; req; post (Str "b@example.com") Undefined] empty_world = [1; 2].
Proof.
  intros env req o.
  pose proof (redis_ticket_from_counter env req empty_world "test@example.com"
                eq_refl eq_refl eq_refl) as (H1 & H2 & _ & _ & H5 & _ & H7 & _).
  split; [exact H1 |]. split; [exact H2 |]. split; [exact H5 |].
  split; [exact (proj1 (H7 [req; post (Str "b@example.com") Undefined])) |].
  vm_compute. reflexivity.
Defined.

(** *** Requests for an email that is already registered *)

Lemma redis_stored_same_hashes env w w' e :
  hashes w' = hashes w -> redis_stored env w' e = redis_stored env w e.
Proof. intros H. unfold redis_stored, redis_hget. by rewrite H. Qed.

Lemma redis_registered_same_hashes env w w' e :
  hashes w' = hashes w -> redis_registered env w' e = redis_registered env w e.
Proof. intros H. unfold redis_registered, redis_hget. by rewrite H. Qed.

Lemma same_store_trans w1 w2 w3 :
  same_store w1 w2 -> same_store w2 w3 -> same_store w1 w3.
Proof. unfold same_store. intros (-> & -> & ->) (-> & -> & ->). auto. Qed.

(** On the key-value backend, an accepted request for a registered email is
    answered 200 with the id derived from the email and the ticket number and
    creation time read from the hash; it reads, and writes nothing. *)
Lemma redis_existing_returns_stored env req w e :
  redis env = true ->
  accepted env w req = Some e ->
  redis_registered env w e = true ->
  let o := serve env req w in
  status_of o = Some 200
  /\ user_of o = Some {| id := Str (emailToId env e);
                         email := e;
                         ticketNumber :=
                           parseInt (reply (redis_hget w (key_of env e) "ticketNumber"));
                         createdAt :=
                           parseInt (reply (redis_hget w (key_of env e) "createdAt"));
                         name := reply (redis_hget w (key_of env e) "name");
                         username := reply (redis_hget w (key_of env e) "username") |}
  /\ forallb (fun c => negb (is_store_write c)) (trace o) = true
  /\ same_store w (final o).
Proof.
  intros Hr Ha He o. subst o.
  pose proof (after_captcha_store env w) as Hst.
  pose proof Hst as (Hh & _ & _).
  rewrite <- (redis_registered_same_hashes env w _ e Hh) in He.
  rewrite (serve_accepted _ _ _ _ Ha), (resolve_redis_existing _ _ _ Hr He).
  rewrite (redis_stored_same_hashes env w _ e Hh).
  unfold status_of, user_of. simpl.
  split_and!; try reflexivity.
  - unfold captcha_trace. by destruct (IS_CAPTCHA_ENABLED env).
  - eapply same_store_trans; [exact Hst |]. by unfold same_store.
Qed.

(** Repeating the request any number of times gives the same body with
    status 200 every time, as long as each repetition is accepted. *)
Lemma redis_existing_repeated env req e n :
  redis env = true ->
  (forall w, accepted env w req = Some e) ->
  forall w,
    redis_registered env w e = true ->
    Forall (fun o => status_of o = Some 200
                     /\ user_of o = user_of (serve env req w))
           (serve_all env (replicate n req) w).
Proof.
  intros Hr Ha. induction n as [| n IH]; intros w He; [constructor |].
  simpl. destruct (redis_existing_returns_stored env req w e Hr (Ha w) He)
    as (Hs & Hu & _ & (Hh & _ & _)).
  constructor; [by split |].
  assert (redis_registered env (final (serve env req w)) e = true) as He'.
  { by rewrite (redis_registered_same_hashes env w _ e Hh). }
  eapply Forall_impl; [apply (IH _ He') |]. simpl. intros o [Ho1 Ho2].
  split; [exact Ho1 |]. rewrite Ho2, Hu.
  destruct (redis_existing_returns_stored env req _ e Hr (Ha _) He')
    as (_ & -> & _).
  unfold redis_hget. by rewrite Hh.
Qed.

(** X15: on the key-value backend what a creation writes is what the next
    request reads: the id, the ticket number and the creation time of the 201
    response come back with status 200. *)
Lemma redis_created_then_stored env req w e :
  redis env = true ->
  accepted env w req = Some e ->
  redis_registered env w e = false ->
  let o1 := serve env req w in
  accepted env (final o1) req = Some e ->
  let o2 := serve env req (final o1) in
  status_of o1 = Some 201 /\ status_of o2 = Some 200
  /\ id <$> user_of o2 = id <$> user_of o1
  /\ ticketNumber <$> user_of o2 = ticketNumber <$> user_of o1
  /\ createdAt <$> user_of o2 = createdAt <$> user_of o1.
Proof.
  intros Hr Ha He o1 Ha2 o2. subst o2.
  assert (redis_registered env (after_captcha env w) e = false) as He'.
  { by rewrite redis_registered_after_captcha. }
  assert (Ho1 : o1 = with_prefix (captcha_trace env (body_token req))
                   (run env (resolve env e) (after_captcha env w))).
  { subst o1. by apply serve_accepted. }
  rewrite (resolve_redis_new _ _ _ Hr He') in Ho1.
  set (w1 := final o1) in *.
  assert (Hh : hashes w1 = hashes (redis_world_created env (after_captcha env w) e)).
  { subst w1. by rewrite Ho1. }
  assert (Hf : forall f, redis_hget w1 (key_of env e) f =
             foldl (fun h fv => <[fv.1 := to_string fv.2]> h)
               (default ∅ (hashes (after_captcha env w) !! key_of env e))
               (redis_new_fields env (after_captcha env w) e) !! f).
  { intros f. unfold redis_hget. rewrite Hh. simpl. by rewrite lookup_insert_eq. }
  assert (Hreg : redis_registered env w1 e = true).
  { unfold redis_registered. fold (key_of env e). rewrite Hf. simpl.
    rewrite lookup_insert_ne by done. rewrite lookup_insert_eq.
    apply pretty_truthy. }
  destruct (redis_existing_returns_stored env req w1 e Hr Ha2 Hreg)
    as (Hs2 & Hu2 & _).
  rewrite Hs2, Hu2, !Hf, Ho1. unfold status_of, user_of. simpl.
  rewrite lookup_insert_eq. rewrite lookup_insert_ne by done.
  rewrite lookup_insert_eq. simpl.
  change (parseInt_string (pretty ?z)) with (parseInt (Str (pretty z))).
  rewrite !parseInt_pretty. auto.
Qed.

Lemma redis_created_then_stored_witness :
  let env := demo_env true false true in
  let req := post (Str "Test@Example.com") (Str "good-token") in
  let o1 := serve env req empty_world in
  let o2 := serve env req (final o1) in
  status_of o1 = Some 201 /\ status_of o2 = Some 200
  /\ id <$> user_of o2 = id <$> user_of o1
  /\ ticketNumber <$> user_of o2 = ticketNumber <$> user_of o1
  /\ createdAt <$> user_of o2 = createdAt <$> user_of o1.
Proof.
  intros env req o1 o2.
  apply (redis_created_then_stored env req empty_world "test@example.com");
    reflexivity.
Defined.

(** On the relational backend, an accepted request for an email the lookup
    finds is answered 200 with the ticket number and the creation time of the
    row, and the table is not touched; the id of the row is not copied: the
    response and the cookie carry no id. *)
Lemma supabase_existing_returns env req w e item :
  redis env = false ->
  supabase env = true ->
  accepted env w req = Some e ->
  supabase_lookup w e = Some item ->
  let o := serve env req w in
  status_of o = Some 200
  /\ ticketNumber <$> user_of o = Some (parseInt (row_ticket_number item))
  /\ createdAt <$> user_of o = Some (parseInt (row_created_at item))
  /\ id <$> user_of o = Some Undefined
  /\ cookie_value <$> cookie_of o = Some Undefined
  /\ same_store w (final o).
Proof.
  intros Hr Hs Ha He o. subst o.
  rewrite <- (supabase_lookup_after_captcha env) in He.
  rewrite (serve_accepted _ _ _ _ Ha), (resolve_supabase_existing _ _ _ _ Hr Hs He).
  unfold status_of, user_of, cookie_of. simpl. split_and!; try reflexivity.
  eapply same_store_trans; [apply after_captcha_store |]. by unfold same_store.
Qed.

(** C1, where the code departs from it: on the relational backend a first
    request creates the row and returns its id; the same request repeated
    finds the row and is answered 200 with the same ticket number and creation
    time, but without any id, in the body as in the cookie, although the row
    still holds it. *)
Theorem supabase_repeat_loses_id :
  let env := demo_env false true false in
  let req := post (Str "a@example.com") Undefined in
  let o1 := serve env req empty_world in
  let o2 := serve env req (final o1) in
  status_of o1 = Some 201
  /\ id <$> user_of o1 = Some (Str "uuid-2")
  /\ row_id <$> supabase_lookup (final o1) "a@example.com" = Some (Str "uuid-2")
  /\ status_of o2 = Some 200
  /\ ticketNumber <$> user_of o2 = ticketNumber <$> user_of o1
  /\ createdAt <$> user_of o2 = createdAt <$> user_of o1
  /\ id <$> user_of o2 = Some Undefined
  /\ cookie_value <$> cookie_of o2 = Some Undefined
  /\ row_id <$> supabase_lookup (final o2) "a@example.com" = Some (Str "uuid-2").
Proof. vm_compute. repeat split. Qed.


(** *** What one request does to the stores *)

Lemma accepted_normalized env w req e :
  accepted env w req = Some e ->
  normalized_email req = Some e /\ isEmail env e = true.
Proof.
  unfold accepted. destruct (String.eqb _ _); [| discriminate].
  destruct (normalized_email req) as [e' |]; [| discriminate].
  destruct (isEmail env e') eqn:Hv; simpl; [| discriminate].
  destruct (passes_captcha _ _ _); [| discriminate].
  intros [= <-]. auto.
Qed.

(** A request leaves the Redis hashes as they are, or it is an accepted
    request on the key-value backend for an email that is not registered, and
    it rewrites the hash under the key of that email only. *)
Lemma serve_hashes env req w :
  hashes (final (serve env req w)) = hashes w
  \/ (redis env = true /\
      exists e, accepted env w req = Some e
        /\ redis_registered env w e = false
        /\ hashes (final (serve env req w))
           = <[key_of env e := redis_new_hash env (after_captcha env w) e]> (hashes w)).
Proof.
  destruct (serve_cases env req w)
    as [[_ ->] | [(_ & _ & ->) | [(e & _ & _ & _ & ->)
       | [(e & _ & _ & _ & _ & _ & ->) | (e & Ha & ->)]]]]; simpl; auto.
  pose proof (after_captcha_store env w) as (Hh & _ & _).
  destruct (redis env) eqn:Hr.
  - destruct (redis_registered env (after_captcha env w) e) eqn:He.
    + rewrite (resolve_redis_existing _ _ _ Hr He). simpl. by left.
    + rewrite (resolve_redis_new _ _ _ Hr He). right. split; [reflexivity |].
      exists e. rewrite redis_registered_after_captcha in He.
      split_and!; [exact Ha | exact He |].
      unfold redis_new_hash. simpl. by rewrite Hh.
  - left. destruct (supabase env) eqn:Hs.
    + destruct (supabase_lookup (after_captcha env w) e) as [item |] eqn:He.
      * by rewrite (resolve_supabase_existing _ _ _ _ Hr Hs He).
      * by rewrite (resolve_supabase_new _ _ _ Hr Hs He).
    + by rewrite (resolve_sample _ _ _ Hr Hs).
Qed.

(** A request leaves the table as it is, or it is an accepted request on the
    relational backend for an email the lookup does not find, and it appends
    one row for that email. *)
Lemma serve_registrations env req w :
  registrations (final (serve env req w)) = registrations w
  \/ (redis env = false /\ supabase env = true /\
      exists e, accepted env w req = Some e
        /\ supabase_lookup w e = None
        /\ registrations (final (serve env req w))
           = (registrations w ++ [supabase_new_row env (after_captcha env w) e])%list).
Proof.
  destruct (serve_cases env req w)
    as [[_ ->] | [(_ & _ & ->) | [(e & _ & _ & _ & ->)
       | [(e & _ & _ & _ & _ & _ & ->) | (e & Ha & ->)]]]]; simpl; auto.
  pose proof (after_captcha_store env w) as (_ & _ & Hreg).
  destruct (redis env) eqn:Hr.
  - left. destruct (redis_registered env (after_captcha env w) e) eqn:He.
    + by rewrite (resolve_redis_existing _ _ _ Hr He).
    + by rewrite (resolve_redis_new _ _ _ Hr He).
  - destruct (supabase env) eqn:Hs.
    + destruct (supabase_lookup (after_captcha env w) e) as [item |] eqn:He.
      * left. by rewrite (resolve_supabase_existing _ _ _ _ Hr Hs He).
      * right. rewrite (resolve_supabase_new _ _ _ Hr Hs He).
        rewrite supabase_lookup_after_captcha in He.
        split_and!; [reflexivity | reflexivity |].
        exists e. split_and!; [exact Ha | exact He |].
        simpl. by rewrite Hreg.
    + left. by rewrite (resolve_sample _ _ _ Hr Hs).
Qed.

Lemma redis_hget_same_key w w' k f :
  hashes w' !! k = hashes w !! k -> redis_hget w' k f = redis_hget w k f.
Proof. intros H. unfold redis_hget. by rewrite H. Qed.

(** *** Registrations are kept *)

(** X1: on the key-value backend a registered email stays registered, with
    its hash untouched, whatever requests are served afterwards, for this
    email or for others; a request for it that is accepted before and after
    them gets the same body. *)
Theorem redis_registration_is_kept env e reqs w :
  redis env = true ->
  redis_registered env w e = true ->
  hashes (serve_seq env reqs w) !! key_of env e = hashes w !! key_of env e
  /\ redis_registered env (serve_seq env reqs w) e = true
  /\ forall req,
       accepted env w req = Some e ->
       accepted env (serve_seq env reqs w) req = Some e ->
       status_of (serve env req (serve_seq env reqs w)) = Some 200
       /\ user_of (serve env req (serve_seq env reqs w)) = user_of (serve env req w).
Proof.
  intros Hr. revert w.
  assert (forall w, redis_registered env w e = true ->
            hashes (serve_seq env reqs w) !! key_of env e = hashes w !! key_of env e)
    as Hkept.
  { induction reqs as [| req reqs IH]; intros w He; [reflexivity |]. simpl.
    assert (hashes (final (serve env req w)) !! key_of env e
            = hashes w !! key_of env e) as Hstep.
    { destruct (serve_hashes env req w) as [-> | (_ & e' & _ & He' & ->)]; [done |].
      destruct (decide (key_of env e' = key_of env e)) as [Hk | Hk].
      - unfold redis_registered in He, He'. fold (key_of env e) in He.
        fold (key_of env e') in He'. rewrite Hk in He'. congruence.
      - by rewrite lookup_insert_ne. }
    rewrite IH; [exact Hstep |].
    unfold redis_registered in *. fold (key_of env e) in *.
    by rewrite (redis_hget_same_key _ _ _ _ Hstep). }
  intros w He. pose proof (Hkept w He) as Hk.
  assert (redis_registered env (serve_seq env reqs w) e = true) as He'.
  { unfold redis_registered in *. fold (key_of env e) in *.
    by rewrite (redis_hget_same_key _ _ _ _ Hk). }
  split_and!; [exact Hk | exact He' |].
  intros req Ha Ha'.
  destruct (redis_existing_returns_stored env req w e Hr Ha He) as (_ & -> & _).
  destruct (redis_existing_returns_stored env req _ e Hr Ha' He') as (-> & -> & _).
  by rewrite !(redis_hget_same_key _ _ _ _ Hk).
Qed.

Lemma redis_registration_is_kept_witness :
  let env := demo_env true false false in
  let a := post (Str "a@example.com") Undefined in
  let others := [post (Str "b@example.com") Undefined; post (Str "A@Example.com") Undefined;
                 post (Str "oops") Undefined; post (Str "c@example.com") Undefined] in
  let w := final (serve env a empty_world) in
  redis_registered env (serve_seq env others w) "a@example.com" = true
  /\ status_of (serve env a (serve_seq env others w)) = Some 200
  /\ user_of (serve env a (serve_seq env others w)) = user_of (serve env a w).
Proof.
  intros env a others w.
  pose proof (redis_registration_is_kept env "a@example.com" others w eq_refl eq_refl)
    as (_ & H2 & H3).
  split; [exact H2 |]. exact (H3 a eq_refl eq_refl).
Defined.

(** X2: the only thing a request can change in the Redis hashes are the
    fields [email], [ticketNumber] and [createdAt] under the key of its own
    email: every other key, and every other field under that key, reads as
    before. *)
Theorem redis_other_fields_untouched env req w k f :
  (forall e, normalized_email req = Some e -> key_of env e = k ->
             f <> "email" /\ f <> "ticketNumber" /\ f <> "createdAt") ->
  redis_hget (final (serve env req w)) k f = redis_hget w k f.
Proof.
  intros Hframe.
  destruct (serve_hashes env req w) as [Hh | (_ & e & Ha & _ & Hh)].
  - unfold redis_hget. by rewrite Hh.
  - apply accepted_normalized in Ha as [Hn _].
    unfold redis_hget. rewrite Hh.
    destruct (decide (key_of env e = k)) as [<- | Hk].
    + destruct (Hframe e Hn eq_refl) as (H1 & H2 & H3).
      rewrite lookup_insert_eq. unfold redis_new_hash. simpl.
      rewrite !lookup_insert_ne by done.
      pose proof (after_captcha_store env w) as (-> & _ & _).
      destruct (hashes w !! key_of env e); reflexivity.
    + by rewrite lookup_insert_ne.
Qed.

Lemma redis_other_fields_untouched_witness :
  let env := demo_env true false false in
  let w := final (serve env (post (Str "a@example.com") Undefined) empty_world) in
  let req := post (Str "b@example.com") Undefined in
  redis_hget (final (serve env req w)) "id:sha-a@example.com" "ticketNumber" = Some "1"
  /\ redis_hget (final (serve env req w)) "id:sha-b@example.com" "ticketNumber" = Some "2".
Proof.
  intros env w req. split; [| reflexivity].
  rewrite (redis_other_fields_untouched env req w "id:sha-a@example.com" "ticketNumber");
    [reflexivity |].
  intros e [= <-]. discriminate.
Defined.

Lemma tickets_cons env req reqs w :
  tickets env (req :: reqs) w
  = match assigned_ticket (serve env req w) with
    | Some t => t :: tickets env reqs (final (serve env req w))
    | None => tickets env reqs (final (serve env req w))
    end.
Proof. reflexivity. Qed.

(** X3: on the key-value backend, served one after the other, the creations
    get consecutive ticket numbers, starting one above the counter, and the
    counter ends at its start plus the number of creations: no number is
    skipped and none is used twice. *)
Theorem redis_tickets_gap_free env reqs w :
  redis env = true ->
  tickets env reqs w = seqZ (count w + 1) (Z.of_nat (length (tickets env reqs w)))
  /\ count (serve_seq env reqs w)
     = count w + Z.of_nat (length (tickets env reqs w)).
Proof.
  intros Hr. revert w. induction reqs as [| req reqs IH]; intros w.
  - simpl. split; [reflexivity | lia].
  - destruct (IH (final (serve env req w))) as [IH1 IH2].
    rewrite tickets_cons. simpl serve_seq.
    destruct (redis_serve_counter env req w Hr) as [[-> Hc] | [-> Hc]];
      rewrite Hc in IH1, IH2.
    + split; [exact IH1 | exact IH2].
    + rewrite length_cons. split.
      * rewrite seqZ_cons by lia. f_equal.
        etrans; [exact IH1 |]. f_equal; lia.
      * rewrite IH2. lia.
Qed.

Lemma redis_tickets_gap_free_witness :
  let env := demo_env true false true in
  let reqs := [post (Str "a@example.com") (Str "good-token");
               post (Str "b@example.com") (Str "forged");
               post (Str "a@example.com") (Str "good-token");
               post (Str "c@example.com") (Str "good-token")] in
  tickets env reqs empty_world = [1; 2]
  /\ count (serve_seq env reqs empty_world) = 2.
Proof.
  intros env reqs.
  pose proof (redis_tickets_gap_free env reqs empty_world eq_refl) as [H1 H2].
  split; [rewrite H1 | rewrite H2]; reflexivity.
Defined.

(** *** The table under sequential requests *)

Lemma rows_for_after_captcha env w e : rows_for (after_captcha env w) e = rows_for w e.
Proof. unfold after_captcha. by destruct (IS_CAPTCHA_ENABLED env). Qed.

Lemma email_is_new_row env w e e' :
  email_is e (supabase_new_row env w e') = String.eqb e' e.
Proof. reflexivity. Qed.

(** The rows of an email after one request: as before, or one more when the
    request has inserted a row for this very email. *)
Lemma serve_rows_for env req w e :
  rows_for (final (serve env req w)) e = rows_for w e
  \/ (redis env = false /\ supabase env = true
      /\ accepted env w req = Some e
      /\ supabase_lookup w e = None
      /\ rows_for (final (serve env req w)) e
         = (rows_for w e ++ [supabase_new_row env (after_captcha env w) e])%list).
Proof.
  unfold rows_for.
  destruct (serve_registrations env req w)
    as [-> | (Hr & Hs & e' & Ha & He' & ->)]; [by left |].
  rewrite List.filter_app. simpl. rewrite email_is_new_row.
  destruct (String.eqb e' e) eqn:Heq.
  - apply String.eqb_eq in Heq. subst e'. right. auto.
  - left. by rewrite app_nil_r.
Qed.

(** X4: on the relational backend a row that the lookup finds is found again,
    the same, after any requests served one after the other, and the table
    only grows at its end. *)
Theorem supabase_registration_is_kept env e item reqs w :
  supabase_lookup w e = Some item ->
  supabase_lookup (serve_seq env reqs w) e = Some item
  /\ exists added,
       registrations (serve_seq env reqs w) = (registrations w ++ added)%list.
Proof.
  revert w. induction reqs as [| req reqs IH]; intros w He.
  - simpl. split; [exact He |]. exists []. by rewrite app_nil_r.
  - simpl.
    assert (supabase_lookup (final (serve env req w)) e = Some item) as He'.
    { unfold supabase_lookup in *. fold (rows_for w e) in He.
      fold (rows_for (final (serve env req w)) e).
      destruct (serve_rows_for env req w e) as [-> | (_ & _ & _ & Hnone & _)];
        [exact He |].
      unfold supabase_lookup in Hnone. fold (rows_for w e) in Hnone. congruence. }
    destruct (IH _ He') as [IH1 [added IH2]]. split; [exact IH1 |].
    destruct (serve_registrations env req w) as [Hreg | (_ & _ & e' & _ & _ & Hreg)];
      rewrite IH2, Hreg.
    + by exists added.
    + eexists. by rewrite <- app_assoc.
Qed.

Lemma supabase_registration_is_kept_witness :
  let env := demo_env false true false in
  let a := post (Str "a@example.com") Undefined in
  let others := [post (Str "b@example.com") Undefined; post (Str " A@example.com") Undefined;
                 post (Str "c@example.com") Undefined] in
  let w := final (serve env a empty_world) in
  exists item,
    supabase_lookup w "a@example.com" = Some item
    /\ supabase_lookup (serve_seq env others w) "a@example.com" = Some item.
Proof.
  intros env a others w. eexists. split; [reflexivity |].
  apply (supabase_registration_is_kept env "a@example.com" _ others w). reflexivity.
Defined.

(** X5: lookup before insert keeps emails unique as long as requests are
    served one after the other: a table in which no email has two rows stays
    such a table. *)
Theorem supabase_unique_emails_kept env reqs w :
  unique_emails w -> unique_emails (serve_seq env reqs w).
Proof.
  revert w. induction reqs as [| req reqs IH]; intros w Hu; [exact Hu |].
  simpl. apply IH. intros e.
  destruct (serve_rows_for env req w e) as [-> | (_ & _ & _ & Hnone & ->)];
    [apply Hu |].
  specialize (Hu e). unfold supabase_lookup in Hnone. fold (rows_for w e) in Hnone.
  destruct (rows_for w e) as [| r [| r' rest]]; simpl in *; [lia | discriminate | lia].
Qed.

Lemma supabase_unique_emails_kept_witness :
  let env := demo_env false true false in
  let reqs := [post (Str "a@example.com") Undefined; post (Str "A@Example.com ") Undefined;
               post (Str "b@example.com") Undefined; post (Str "a@example.com") Undefined] in
  unique_emails (serve_seq env reqs empty_world)
  /\ length (registrations (serve_seq env reqs empty_world)) = 2%nat.
Proof.
  intros env reqs. split; [| reflexivity].
  apply (supabase_unique_emails_kept env reqs empty_world).
  intros e. unfold rows_for. simpl. lia.
Defined.

(** A request on the relational backend hands out no ticket and leaves the
    table alone, or hands out the number of rows plus one and appends a
    row. *)
Lemma supabase_serve_ticket env req w :
  redis env = false ->
  supabase env = true ->
  (assigned_ticket (serve env req w) = None
   /\ registrations (final (serve env req w)) = registrations w)
  \/ (assigned_ticket (serve env req w) = Some (Z.of_nat (length (registrations w)) + 1)
      /\ length (registrations (final (serve env req w)))
         = S (length (registrations w))).
Proof.
  intros Hr Hs.
  destruct (serve_cases env req w)
    as [[_ ->] | [(_ & _ & ->) | [(e & _ & _ & _ & ->)
       | [(e & _ & _ & _ & _ & _ & ->) | (e & Ha & ->)]]]]; simpl; auto.
  pose proof (after_captcha_store env w) as (_ & _ & Hreg).
  destruct (supabase_lookup (after_captcha env w) e) as [item |] eqn:He.
  - rewrite (resolve_supabase_existing _ _ _ _ Hr Hs He). left. simpl. auto.
  - rewrite (resolve_supabase_new _ _ _ Hr Hs He). right.
    unfold assigned_ticket. simpl. rewrite Hreg, length_app. simpl.
    split; [reflexivity | lia].
Qed.

(** X6: on the relational backend, served one after the other, the creations
    get consecutive ticket numbers starting at the number of rows plus one,
    and the table grows by one row per creation. *)
Theorem supabase_tickets_follow_table env reqs w :
  redis env = false ->
  supabase env = true ->
  tickets env reqs w
    = seqZ (Z.of_nat (length (registrations w)) + 1)
           (Z.of_nat (length (tickets env reqs w)))
  /\ length (registrations (serve_seq env reqs w))
     = (length (registrations w) + length (tickets env reqs w))%nat.
Proof.
  intros Hr Hs. revert w. induction reqs as [| req reqs IH]; intros w.
  - simpl. split; [reflexivity | lia].
  - destruct (IH (final (serve env req w))) as [IH1 IH2].
    rewrite tickets_cons. simpl serve_seq.
    destruct (supabase_serve_ticket env req w Hr Hs) as [[-> Hc] | [-> Hc]];
      rewrite Hc in IH1, IH2.
    + split; [exact IH1 | exact IH2].
    + rewrite length_cons. split.
      * rewrite seqZ_cons by lia. f_equal.
        etrans; [exact IH1 |]. f_equal; lia.
      * rewrite IH2. lia.
Qed.

Lemma supabase_tickets_follow_table_witness :
  let env := demo_env false true false in
  let reqs := [post (Str "a@example.com") Undefined; post (Str "b@example.com") Undefined;
               post (Str "a@example.com") Undefined; post (Str "c@example.com") Undefined] in
  tickets env reqs empty_world = [1; 2; 3]
  /\ length (registrations (serve_seq env reqs empty_world)) = 3%nat.
Proof.
  intros env reqs.
  pose proof (supabase_tickets_follow_table env reqs empty_world eq_refl eq_refl)
    as [H1 H2].
  split; [rewrite H1 | rewrite H2]; reflexivity.
Defined.

(** *** Duplicate rows *)

Lemma single_none_of_two (l : list Row) : (2 <= length l)%nat -> single l = None.
Proof. destruct l as [| a [| b l]]; simpl; [lia | lia | reflexivity]. Qed.

(** X7: once the table holds two or more rows for an email, the lookup with
    [.single()] finds none of them: every accepted request for this email is
    answered 201 with a new ticket number and adds one more row for it. *)
Theorem supabase_duplicates_keep_growing env req w e :
  redis env = false ->
  supabase env = true ->
  accepted env w req = Some e ->
  (2 <= length (rows_for w e))%nat ->
  let o := serve env req w in
  status_of o = Some 201
  /\ assigned_ticket o = Some (Z.of_nat (length (registrations w)) + 1)
  /\ length (rows_for (final o) e) = S (length (rows_for w e)).
Proof.
  intros Hr Hs Ha Hdup o. subst o.
  assert (supabase_lookup w e = None) as He by (by apply single_none_of_two).
  pose proof He as He'. rewrite <- (supabase_lookup_after_captcha env) in He'.
  pose proof (after_captcha_store env w) as (_ & _ & Hreg).
  split_and!.
  - rewrite (serve_accepted _ _ _ _ Ha), (resolve_supabase_new _ _ _ Hr Hs He').
    reflexivity.
  - rewrite (serve_accepted _ _ _ _ Ha), (resolve_supabase_new _ _ _ Hr Hs He').
    unfold assigned_ticket. simpl. by rewrite Hreg.
  - destruct (serve_rows_for env req w e) as [Hsame | (_ & _ & _ & _ & ->)].
    + exfalso. unfold rows_for in Hsame.
      rewrite (serve_accepted _ _ _ _ Ha), (resolve_supabase_new _ _ _ Hr Hs He') in Hsame.
      simpl in Hsame. rewrite Hreg, List.filter_app in Hsame. simpl in Hsame.
      rewrite email_is_new_row, String.eqb_refl in Hsame.
      apply (f_equal length) in Hsame. rewrite length_app in Hsame. simpl in Hsame. lia.
    + rewrite length_app. simpl. lia.
Qed.

Lemma supabase_duplicates_keep_growing_witness :
  let env := demo_env false true false in
  let a := post (Str "a@example.com") Undefined in
  let b := post (Str "a@example.com") (Str "other-tab") in
  let w := (interleave env lockstep (register env a) (register env b) empty_world).2 in
  length (rows_for w "a@example.com") = 2%nat
  /\ status_of (serve env a w) = Some 201
  /\ assigned_ticket (serve env a w) = Some 3
  /\ length (rows_for (final (serve env a w)) "a@example.com") = 3%nat.
Proof.
  intros env a b w. split; [reflexivity |].
  apply (supabase_duplicates_keep_growing env a w "a@example.com"); reflexivity.
Defined.

(** X8: two accepted requests for the same unregistered email that advance
    in lockstep on the relational backend, with captcha enforcement on or off,
    both insert: the table ends with two rows for the email, the same ticket
    number in both, and the lookup no longer finds a registration for it. *)
Theorem supabase_race_duplicates_email env req1 req2 w e :
  redis env = false ->
  supabase env = true ->
  accepted env w req1 = Some e ->
  accepted env (after_captcha env w) req2 = Some e ->
  rows_for w e = [] ->
  exists r1 r2 w' row1 row2,
    interleave env (alternate 5) (register env req1) (register env req2) w
      = (Return r1, Return r2, w')
    /\ status r1 = 201 /\ status r2 = 201
    /\ rows_for w' e = [row1; row2]
    /\ row_ticket_number row1 = row_ticket_number row2
    /\ supabase_lookup w' e = None.
Proof.
  intros Hr Hs Ha1 Ha2 He.
  destruct (register_accepted _ _ _ _ Ha1) as [-> Hc1].
  destruct (register_accepted _ _ _ _ Ha2) as [-> Hc2].
  unfold rows_for in He. unfold after_captcha in Hc2.
  destruct (IS_CAPTCHA_ENABLED env).
  - specialize (Hc1 eq_refl). specialize (Hc2 eq_refl). simpl in Hc2.
    unfold resolve. rewrite Hr, Hs. unfold_prog. simpl.
    rewrite Hc1, Hc2. simpl. rewrite He. simpl.
    do 5 eexists. split; [reflexivity |]. simpl.
    split; [reflexivity |]. split; [reflexivity |].
    unfold supabase_lookup, rows_for. simpl.
    rewrite !List.filter_app, He. simpl.
    unfold email_is. simpl. rewrite String.eqb_refl. simpl.
    split; [reflexivity |]. split; reflexivity.
  - unfold resolve. rewrite Hr, Hs. unfold_prog. simpl.
    rewrite He. simpl.
    do 5 eexists. split; [reflexivity |]. simpl.
    split; [reflexivity |]. split; [reflexivity |].
    unfold supabase_lookup, rows_for. simpl.
    rewrite !List.filter_app, He. simpl.
    unfold email_is. simpl. rewrite String.eqb_refl. simpl.
    split; [reflexivity |]. split; reflexivity.
Qed.

Lemma supabase_race_duplicates_email_witness :
  (let env := demo_env false true false in
   let a := post (Str "a@example.com") Undefined in
   let b := post (Str " A@Example.com") Undefined in
   exists r1 r2 w' row1 row2,
     interleave env (alternate 5) (register env a) (register env b) empty_world
       = (Return r1, Return r2, w')
     /\ status r1 = 201 /\ status r2 = 201
     /\ rows_for w' "a@example.com" = [row1; row2]
     /\ row_ticket_number row1 = row_ticket_number row2
     /\ supabase_lookup w' "a@example.com" = None)
  /\ (let env := demo_env false true true in
      let a := post (Str "a@example.com") (Str "good-token") in
      exists r1 r2 w' row1 row2,
        interleave env (alternate 5) (register env a) (register env a) empty_world
          = (Return r1, Return r2, w')
        /\ status r1 = 201 /\ status r2 = 201
        /\ rows_for w' "a@example.com" = [row1; row2]
        /\ row_ticket_number row1 = row_ticket_number row2
        /\ supabase_lookup w' "a@example.com" = None).
Proof.
  split.
  - intros env a b.
    apply (supabase_race_duplicates_email env a b empty_world "a@example.com");
      reflexivity.
  - intros env a.
    apply (supabase_race_duplicates_email env a a empty_world "a@example.com");
      reflexivity.
Defined.

(** *** A creation read back on the relational backend *)

(** X9: on the relational backend, the row a creation inserts for an email
    that had none is the row the next request for it finds: that request is
    answered 200 with the ticket number and the creation time of the 201
    response, and inserts nothing. *)
Theorem supabase_created_then_found env req w e :
  redis env = false ->
  supabase env = true ->
  accepted env w req = Some e ->
  rows_for w e = [] ->
  let o1 := serve env req w in
  accepted env (final o1) req = Some e ->
  let o2 := serve env req (final o1) in
  status_of o1 = Some 201 /\ status_of o2 = Some 200
  /\ ticketNumber <$> user_of o2 = ticketNumber <$> user_of o1
  /\ createdAt <$> user_of o2 = createdAt <$> user_of o1
  /\ registrations (final o2) = registrations (final o1).
Proof.
  intros Hr Hs Ha He o1 Ha2 o2. subst o2.
  assert (supabase_lookup (after_captcha env w) e = None) as Hnone.
  { rewrite supabase_lookup_after_captcha. unfold supabase_lookup.
    fold (rows_for w e). by rewrite He. }
  assert (Ho1 : o1 = with_prefix (captcha_trace env (body_token req))
                   (run env (resolve env e) (after_captcha env w))).
  { subst o1. by apply serve_accepted. }
  rewrite (resolve_supabase_new _ _ _ Hr Hs Hnone) in Ho1.
  set (row := supabase_new_row env (after_captcha env w) e) in *.
  assert (supabase_lookup (final o1) e = Some row) as Hfound.
  { rewrite Ho1. unfold supabase_lookup. simpl. rewrite List.filter_app.
    pose proof (rows_for_after_captcha env w e) as Hrows. unfold rows_for in Hrows.
    rewrite Hrows. fold (rows_for w e). rewrite He. simpl.
    subst row. by rewrite email_is_new_row, String.eqb_refl. }
  destruct (supabase_existing_returns env req (final o1) e row Hr Hs Ha2 Hfound)
    as (H1 & H2 & H3 & _ & _ & (_ & _ & H6)).
  split_and!.
  - by rewrite Ho1.
  - exact H1.
  - rewrite H2, Ho1. unfold user_of. simpl. f_equal.
    pose proof (after_captcha_store env w) as (_ & _ & Hreg).
    unfold supabase_new_row. simpl.
    apply parseInt_to_string.
  - rewrite H3, Ho1. reflexivity.
  - exact H6.
Qed.

Lemma supabase_created_then_found_witness :
  let env := demo_env false true false in
  let req := post (Str "a@example.com") Undefined in
  let o1 := serve env req empty_world in
  let o2 := serve env req (final o1) in
  status_of o1 = Some 201 /\ status_of o2 = Some 200
  /\ ticketNumber <$> user_of o2 = ticketNumber <$> user_of o1
  /\ createdAt <$> user_of o2 = createdAt <$> user_of o1
  /\ registrations (final o2) = registrations (final o1).
Proof.
  intros env req o1 o2.
  apply (supabase_created_then_found env req empty_world "a@example.com");
    reflexivity.
Defined.

(** *** Writes, cookies and the captcha call *)

Lemma captcha_trace_no_write env token :
  existsb is_store_write (captcha_trace env token) = false.
Proof. unfold captcha_trace. by destruct (IS_CAPTCHA_ENABLED env). Qed.

(** X10: a request writes to a store exactly when it is answered 201; with
    any other answer, and when the handler throws, the hashes, the counter
    and the table are as before. *)
Theorem store_written_exactly_with_201 env req w :
  let o := serve env req w in
  (existsb is_store_write (trace o) = true <-> status_of o = Some 201)
  /\ (status_of o <> Some 201 -> same_store w (final o)).
Proof.
  intros o. subst o.
  destruct (serve_cases env req w)
    as [[_ ->] | [(_ & _ & ->) | [(e & _ & _ & _ & ->)
       | [(e & _ & _ & _ & _ & _ & ->) | (e & Ha & ->)]]]];
    unfold status_of, same_store; simpl;
    try (split; [split; discriminate | auto]).
  pose proof (after_captcha_store env w) as Hst.
  rewrite existsb_app, captcha_trace_no_write. simpl.
  destruct (redis env) eqn:Hr.
  - destruct (redis_registered env (after_captcha env w) e) eqn:He.
    + rewrite (resolve_redis_existing _ _ _ Hr He). simpl.
      split; [split; discriminate | intros _; exact Hst].
    + rewrite (resolve_redis_new _ _ _ Hr He). simpl.
      split; [split; reflexivity | congruence].
  - destruct (supabase env) eqn:Hs.
    + destruct (supabase_lookup (after_captcha env w) e) as [item |] eqn:He.
      * rewrite (resolve_supabase_existing _ _ _ _ Hr Hs He). simpl.
        split; [split; discriminate | intros _; exact Hst].
      * rewrite (resolve_supabase_new _ _ _ Hr Hs He). simpl.
        split; [split; reflexivity | congruence].
    + rewrite (resolve_sample _ _ _ Hr Hs). simpl.
      split; [split; discriminate | intros _; exact Hst].
Qed.

(** X11: a response carries the session cookie exactly when its status is
    200 or 201, and errors (400, 501) carry none; the cookie is named
    [COOKIE], is HTTP-only, SameSite strict, scoped to [/api], secure exactly
    in production, and expires seven days (604800000 ms) after the clock value
    read by the last operation of the request. *)
Theorem session_cookie_shape env req w :
  match result (serve env req w) with
  | Returned r =>
      match set_cookie r with
      | Some c =>
          (status r = 200 \/ status r = 201)
          /\ cookie_name c = COOKIE env
          /\ httpOnly c = true /\ sameSite c = "strict" /\ path c = "/api"
          /\ secure c = production env
          /\ exists t, expires c = clock env t + 604800000
                       /\ tick (final (serve env req w)) = S t
                       /\ last (trace (serve env req w)) = Some (call Date_now)
      | None => status r = 400 \/ status r = 501
      end
  | Threw _ => True
  end.
Proof.
  destruct (serve_cases env req w)
    as [[_ ->] | [(_ & _ & ->) | [(e & _ & _ & _ & ->)
       | [(e & _ & _ & _ & _ & _ & ->) | (e & Ha & ->)]]]]; simpl; auto.
  assert (forall (t : list Call) c, last (captcha_trace env (body_token req) ++ t ++ [c])
                                    = Some c) as Hlast.
  { intros t c. by rewrite app_assoc, last_snoc. }
  destruct (redis env) eqn:Hr.
  - destruct (redis_registered env (after_captcha env w) e) eqn:He.
    + rewrite (resolve_redis_existing _ _ _ Hr He). simpl.
      split_and!; auto. eexists. split_and!; [reflexivity | reflexivity |].
      apply (Hlast [_; _]).
    + rewrite (resolve_redis_new _ _ _ Hr He). simpl.
      split_and!; auto. eexists. split_and!; [reflexivity | reflexivity |].
      apply (Hlast [_; _; _; _]).
  - destruct (supabase env) eqn:Hs.
    + destruct (supabase_lookup (after_captcha env w) e) as [item |] eqn:He.
      * rewrite (resolve_supabase_existing _ _ _ _ Hr Hs He). simpl.
        split_and!; auto. eexists. split_and!; [reflexivity | reflexivity |].
        apply (Hlast [_]).
      * rewrite (resolve_supabase_new _ _ _ Hr Hs He). simpl.
        split_and!; auto. eexists. split_and!; [reflexivity | reflexivity |].
        apply (Hlast [_; _; _]).
    + rewrite (resolve_sample _ _ _ Hr Hs). simpl.
      split_and!; auto. eexists. split_and!; [reflexivity | reflexivity |].
      apply (Hlast [_; _]).
Qed.

(** X12: the captcha validator is called at most once per request, with the
    token of the body, and only when enforcement is on, the method is POST
    and the email has passed the email check; when it is called, it is the
    first operation of the request. *)
Theorem captcha_called_once_after_email_check env req w :
  let gate :=
    IS_CAPTCHA_ENABLED env && String.eqb (method req) "POST"
    && match normalized_email req with
       | Some e => isEmail env e
       | None => false
       end in
  captcha_calls (trace (serve env req w))
    = (if gate then [call (validateCaptchaResult (body_token req))] else [])
  /\ (gate = true ->
      head (trace (serve env req w)) = Some (call (validateCaptchaResult (body_token req)))).
Proof.
  intros gate. subst gate. unfold captcha_calls.
  destruct (serve_cases env req w)
    as [[Hm ->] | [(Hm & Hn & ->) | [(e & Hm & Hn & Hv & ->)
       | [(e & Hm & Hn & Hv & Hen & _ & ->) | (e & Ha & ->)]]]]; simpl.
  - rewrite Hm, andb_false_r. simpl. split; [reflexivity | discriminate].
  - rewrite Hn, andb_false_r. split; [reflexivity | discriminate].
  - rewrite Hn, Hv, andb_false_r. split; [reflexivity | discriminate].
  - rewrite Hn, Hv, Hm, Hen. simpl. split; reflexivity.
  - destruct (accepted_normalized _ _ _ _ Ha) as [Hn Hv].
    rewrite (accepted_is_post _ _ _ _ Ha), Hn, Hv, !andb_true_r.
    destruct (resolve_cases env e (after_captcha env w))
      as (v & now & w' & t & -> & _ & Ht). simpl.
    assert (List.filter is_captcha_call t = []) as Hnil.
    { clear -Ht. induction t as [| c t IH]; [reflexivity |]. simpl in *.
      apply andb_true_iff in Ht as [Hc Ht]. apply negb_true_iff in Hc.
      rewrite Hc. by apply IH. }
    rewrite List.filter_app, Hnil, app_nil_r. unfold captcha_trace.
    destruct (IS_CAPTCHA_ENABLED env); simpl; split; try reflexivity. discriminate.
Qed.

(** X13: a POST request whose email field is truthy and not a string (a
    number, [true], an object) makes the handler throw at the call of [trim],
    before any operation: nothing is validated, read or written. *)
Theorem register_throws_on_non_string_email env req w :
  method req = "POST" ->
  truthy (body_email req) = true ->
  (forall s, body_email req <> Str s) ->
  exists msg,
    result (serve env req w) = Threw msg
    /\ trace (serve env req w) = []
    /\ final (serve env req w) = w.
Proof.
  intros Hm Ht Hns.
  assert (normalized_email req = None) as Hn.
  { unfold normalized_email, or_else, body_email in *.
    destruct (req_body req) as [| e t]; [reflexivity |]. rewrite Ht.
    destruct e as [| | b | n | s |]; try reflexivity.
    by destruct (Hns s). }
  apply String.eqb_eq in Hm.
  rewrite (serve_throws env req w Hm Hn). simpl. eauto.
Qed.

Lemma register_throws_on_non_string_email_witness :
  let env := demo_env true false true in
  let req := post (Number (Int 42)) (Str "good-token") in
  exists msg,
    result (serve env req empty_world) = Threw msg
    /\ trace (serve env req empty_world) = []
    /\ final (serve env req empty_world) = empty_world.
Proof.
  intros env req.
  apply (register_throws_on_non_string_email env req empty_world);
    [reflexivity | reflexivity | discriminate].
Defined.

(** *** Normalization of the email *)

Lemma is_space_lower_char c : is_space (lower_char c) = is_space c.
Proof. destruct c as [[] [] [] [] [] [] [] []]; reflexivity. Qed.

Lemma lower_char_idem c : lower_char (lower_char c) = lower_char c.
Proof. destruct c as [[] [] [] [] [] [] [] []]; reflexivity. Qed.

Lemma toLowerCase_idem s : toLowerCase (toLowerCase s) = toLowerCase s.
Proof. induction s as [| c s IH]; simpl; [reflexivity |]. by rewrite lower_char_idem, IH. Qed.

Lemma toLowerCase_trimStart s : toLowerCase (trimStart s) = trimStart (toLowerCase s).
Proof.
  induction s as [| c s IH]; simpl; [reflexivity |].
  rewrite is_space_lower_char. by destruct (is_space c).
Qed.

Lemma toLowerCase_trimEnd s : toLowerCase (trimEnd s) = trimEnd (toLowerCase s).
Proof.
  induction s as [| c s IH]; simpl; [reflexivity |].
  rewrite <- IH, is_space_lower_char.
  destruct (trimEnd s); simpl; [by destruct (is_space c) | reflexivity].
Qed.

Lemma trimEnd_idem s : trimEnd (trimEnd s) = trimEnd s.
Proof.
  induction s as [| c s IH]; simpl; [reflexivity |].
  destruct (trimEnd s) as [| d r] eqn:Hr.
  - destruct (is_space c) eqn:Hc; simpl; [reflexivity | by rewrite Hc].
  - change (trimEnd (String c (String d r))) with
      (match trimEnd (String d r) with
       | EmptyString => if is_space c then EmptyString else String c EmptyString
       | r' => String c r'
       end).
    by rewrite IH.
Qed.

(** What [trimStart] returns has no white space at its start, and [trimEnd]
    leaves such a start alone. *)
Lemma trimStart_trimEnd_trimStart s :
  trimStart (trimEnd (trimStart s)) = trimEnd (trimStart s).
Proof.
  induction s as [| c s IH]; simpl; [reflexivity |].
  destruct (is_space c) eqn:Hc; [exact IH |].
  simpl. destruct (trimEnd s); rewrite ?Hc; simpl; by rewrite Hc.
Qed.

Lemma trim_idem s : trim (trim s) = trim s.
Proof. unfold trim. by rewrite trimStart_trimEnd_trimStart, trimEnd_idem. Qed.

Lemma normalize_idem s :
  toLowerCase (trim (toLowerCase (trim s))) = toLowerCase (trim s).
Proof.
  unfold trim at 1.
  rewrite <- toLowerCase_trimStart, <- toLowerCase_trimEnd, toLowerCase_idem.
  fold (trim (trim s)). by rewrite trim_idem.
Qed.

Lemma normalized_email_string m s token :
  normalized_email {| method := m; req_body := Fields (Str s) token |}
  = Some (toLowerCase (trim s)).
Proof.
  unfold normalized_email, or_else. simpl.
  destruct (String.eqb s "") eqn:Hs; [| reflexivity].
  apply String.eqb_eq in Hs. by subst s.
Qed.

(** X14: the handler sees an email only through its trimmed, lower-cased
    form, and that form is a fixed point: a request and the same request with
    the email already normalized (the email a success body returns) have the
    same outcome, so addresses that differ in case or in surrounding white
    space are one registration. *)
Theorem register_normalizes_email env m s token w :
  toLowerCase (trim (toLowerCase (trim s))) = toLowerCase (trim s)
  /\ serve env {| method := m; req_body := Fields (Str s) token |} w
     = serve env {| method := m; req_body := Fields (Str (toLowerCase (trim s))) token |} w.
Proof.
  split; [apply normalize_idem |].
  pose proof (normalized_email_string m s token) as H1.
  pose proof (normalized_email_string m (toLowerCase (trim s)) token) as H2.
  rewrite normalize_idem in H2.
  unfold serve, register, normalized_email in *. simpl in *.
  destruct (or_else (Str s) (Str "")); try discriminate.
  destruct (or_else (Str (toLowerCase (trim s))) (Str "")); try discriminate.
  injection H1 as ->. injection H2 as ->. reflexivity.
Qed.

(** *** Two creations for one email on the key-value backend *)

(** X16: the lookup and the write of the key-value branch are separate
    operations: two accepted requests for the same unregistered email that
    advance in lockstep, with captcha enforcement on or off, are both answered
    201, with two consecutive ticket numbers; the hash keeps the second one,
    so the number given to the first request is held by no record. *)
Theorem redis_race_same_email env req1 req2 w e :
  redis env = true ->
  accepted env w req1 = Some e ->
  accepted env (after_captcha env w) req2 = Some e ->
  redis_registered env w e = false ->
  exists r1 r2 w',
    interleave env (alternate 6) (register env req1) (register env req2) w
      = (Return r1, Return r2, w')
    /\ status r1 = 201 /\ status r2 = 201
    /\ ticket_of_response r1 = Some (Int (count w + 1))
    /\ ticket_of_response r2 = Some (Int (count w + 2))
    /\ count w' = count w + 2
    /\ redis_hget w' (key_of env e) "ticketNumber" = Some (pretty (count w + 2)).
Proof.
  intros Hr Ha1 Ha2 He.
  destruct (register_accepted _ _ _ _ Ha1) as [-> Hc1].
  destruct (register_accepted _ _ _ _ Ha2) as [-> Hc2].
  unfold redis_registered in He. unfold after_captcha in Hc2.
  destruct (IS_CAPTCHA_ENABLED env).
  - specialize (Hc1 eq_refl). specialize (Hc2 eq_refl). simpl in Hc2.
    unfold resolve. rewrite Hr. unfold_prog. simpl.
    rewrite Hc1, Hc2. simpl.
    change (redis_hget (tock (tock w)) ("id:" +:+ emailToId env e) "ticketNumber")
      with (redis_hget w ("id:" +:+ emailToId env e) "ticketNumber").
    change (redis_hget (tock (tock (tock w))) ("id:" +:+ emailToId env e) "ticketNumber")
      with (redis_hget w ("id:" +:+ emailToId env e) "ticketNumber").
    rewrite He. simpl.
    do 3 eexists. split; [reflexivity |].
    unfold ticket_of_response, count, redis_incr, redis_hget, key_of. simpl.
    rewrite !lookup_insert_eq. simpl.
    unfold redis_hmset at 1. rewrite lookup_insert_eq. simpl.
    rewrite lookup_insert_ne by done. rewrite lookup_insert_eq.
    replace (default 0 (counters w !! "count") + 1 + 1)
      with (default 0 (counters w !! "count") + 2) by lia.
    split_and!; reflexivity.
  - unfold resolve. rewrite Hr. unfold_prog. simpl.
    change (redis_hget (tock w) ("id:" +:+ emailToId env e) "ticketNumber")
      with (redis_hget w ("id:" +:+ emailToId env e) "ticketNumber").
    rewrite He. simpl.
    do 3 eexists. split; [reflexivity |].
    unfold ticket_of_response, count, redis_incr, redis_hget, key_of. simpl.
    rewrite !lookup_insert_eq. simpl.
    unfold redis_hmset at 1. rewrite lookup_insert_eq. simpl.
    rewrite lookup_insert_ne by done. rewrite lookup_insert_eq.
    replace (default 0 (counters w !! "count") + 1 + 1)
      with (default 0 (counters w !! "count") + 2) by lia.
    split_and!; reflexivity.
Qed.

Lemma redis_race_same_email_witness :
  (let env := demo_env true false false in
   let a := post (Str "a@example.com") Undefined in
   exists r1 r2 w',
     interleave env (alternate 6) (register env a) (register env a) empty_world
       = (Return r1, Return r2, w')
     /\ status r1 = 201 /\ status r2 = 201
     /\ ticket_of_response r1 = Some (Int 1)
     /\ ticket_of_response r2 = Some (Int 2)
     /\ count w' = 2
     /\ redis_hget w' "id:sha-a@example.com" "ticketNumber" = Some "2")
  /\ (let env := demo_env true false true in
      let a := post (Str "a@example.com") (Str "good-token") in
      exists r1 r2 w',
        interleave env (alternate 6) (register env a) (register env a) empty_world
          = (Return r1, Return r2, w')
        /\ status r1 = 201 /\ status r2 = 201
        /\ ticket_of_response r1 = Some (Int 1)
        /\ ticket_of_response r2 = Some (Int 2)
        /\ count w' = 2
        /\ redis_hget w' "id:sha-a@example.com" "ticketNumber" = Some "2").
Proof.
  split.
  - intros env a.
    apply (redis_race_same_email env a a empty_world "a@example.com"); reflexivity.
  - intros env a.
    apply (redis_race_same_email env a a empty_world "a@example.com"); reflexivity.
Defined.
